(** * pymatgen.alchemy.materials: transformation histories

    A shallow embedding of [TransformedStructure] (a structure together with
    the history of transformations that produced it, with undo and redo) and
    of [TransformedStructureTree] (a group of transformed structures advanced
    together), followed by the properties of the two classes.

    Python objects that are mutated and shared live in an explicit store;
    a method is a computation in a state-and-exception monad, so that the
    state left behind by a method that raises can be inspected. *)

From stdpp Require Import gmap strings list fin_maps.
From Stdlib Require Import ZArith Ascii.

Set Warnings "-register-all".

(** ** Exceptions and results *)

(** The Python exceptions the module can raise or let through.  [Failure]
    stands for any other exception class a transformation may raise. *)
Inductive exn : Type :=
  | IndexError (msg : string)
  | TypeError (msg : string)
  | AttributeError (msg : string)
  | KeyError (key : string)
  | ValueError (msg : string)
  | Failure (cls msg : string).

Inductive result (A : Type) : Type :=
  | Ok (a : A)
  | Raise (e : exn).
Arguments Ok {A} a.
Arguments Raise {A} e.

(** ** The state-and-exception monad

    [M S A] is a method body running against a mutable state [S]: it returns
    a value or raises, and in both cases hands back the state it left. *)
Definition M (S A : Type) : Type := S -> result A * S.

#[global] Instance M_ret {S} : MRet (M S) := fun A a s => (Ok a, s).
#[global] Instance M_bind {S} : MBind (M S) := fun A B k m s =>
  match m s with
  | (Ok a, s') => k a s'
  | (Raise e, s') => (Raise e, s')
  end.

#[global] Instance result_ret : MRet result := fun A a => Ok a.
#[global] Instance result_bind : MBind result := fun A B k r =>
  match r with
  | Ok a => k a
  | Raise e => Raise e
  end.

Definition raise {S A} (e : exn) : M S A := fun s => (Raise e, s).
Definition get {S} : M S S := fun s => (Ok s, s).
Definition gets {S A} (f : S -> A) : M S A := fun s => (Ok (f s), s).
Definition modify {S} (f : S -> S) : M S unit := fun s => (Ok tt, f s).
Definition lift {S A} (r : result A) : M S A := fun s => (r, s).

(** [for x in xs: body x] with an accumulator for the loop's local variables. *)
Fixpoint for_acc {S A B} (xs : list A) (acc : B) (body : B -> A -> M S B) : M S B :=
  match xs with
  | [] => mret acc
  | x :: xs' => acc' ← body acc x; for_acc xs' acc' body
  end.

Definition for_each {S A} (xs : list A) (body : A -> M S unit) : M S unit :=
  for_acc xs tt (fun _ x => body x).

(** [n] calls of [m] in a row; the first one that raises ends the run. *)
Fixpoint times {S} (n : nat) (m : M S unit) : M S unit :=
  match n with
  | 0 => mret tt
  | S k => times k m;; m
  end.

(** [[f(x) for x in xs]] *)
Fixpoint comprehension {S A B} (xs : list A) (f : A -> M S B) : M S (list B) :=
  match xs with
  | [] => mret []
  | x :: xs' => y ← f x; ys ← comprehension xs' f; mret (y :: ys)
  end.

(** ** Python lists *)

Module PyList.
Section ops.
Context {A : Type}.

(** [l[i]] for an integer [i], with Python's negative indices. *)
Definition index (l : list A) (i : Z) : result A :=
  let n := Z.of_nat (length l) in
  let j := if (i <? 0)%Z then (n + i)%Z else i in
  if ((0 <=? j)%Z && (j <? n)%Z)%bool then
    match l !! Z.to_nat j with
    | Some x => Ok x
    | None => Raise (IndexError "list index out of range")
    end
  else Raise (IndexError "list index out of range").

(** [l[0:i]]: slices clip, they never raise. *)
Definition slice_to (l : list A) (i : Z) : list A :=
  let n := Z.of_nat (length l) in
  let j := if (i <? 0)%Z then (n + i)%Z else i in
  take (Z.to_nat j) l.

(** [l.pop()] on the list held in a state: the popped element and the rest. *)
Definition pop (l : list A) : result (A * list A) :=
  match last l with
  | Some x => Ok (x, removelast l)
  | None => Raise (IndexError "pop from empty list")
  end.

(** [l.remove(x)]: drops the first occurrence. *)
Fixpoint remove `{EqDecision A} (x : A) (l : list A) : result (list A) :=
  match l with
  | [] => Raise (ValueError "list.remove(x): x not in list")
  | y :: l' =>
      if decide (x = y) then Ok l'
      else match remove x l' with
           | Ok r => Ok (y :: r)
           | Raise e => Raise e
           end
  end.
End ops.
End PyList.

(** ** JSON-like Python data, for provenance records and serialised forms *)

Inductive pyval : Type :=
  | PNone
  | PStr (s : string)
  | PList (l : list pyval)
  | PDict (d : gmap string pyval).

Abbreviation pydict := (gmap string pyval).

(** [v[k]] for a string key [k] *)
Definition subscript (v : pyval) (k : string) : result pyval :=
  match v with
  | PDict d =>
      match d !! k with
      | Some x => Ok x
      | None => Raise (KeyError k)
      end
  | PList _ => Raise (TypeError "list indices must be integers, not str")
  | PStr _ => Raise (TypeError "string indices must be integers, not str")
  | PNone => Raise (TypeError "'NoneType' object has no attribute '__getitem__'")
  end.

(** The [history] argument of a constructor, read from a Python value:
    [None] or a list. *)
Definition as_history (v : pyval) : result (option (list pyval)) :=
  match v with
  | PNone => Ok None
  | PList l => Ok (Some l)
  | _ => Raise (TypeError "history must be a list")
  end.

(** ** The collaborators of the module

    Structures and transformations are opaque.  What a transformation returns
    is either one structure or a Python list of structures; the two are told
    apart by [isinstance(_, Iterable)], which is the constructor here.  A
    transformation may raise. *)

Inductive value (Structure : Type) : Type :=
  | One (s : Structure)
  | Many (l : list Structure).
Arguments One {Structure} s.
Arguments Many {Structure} l.

Class Alchemy : Type := {
  Structure : Type;
  Transformation : Type;
  (** [transformation.apply_transformation(structure)] *)
  apply_transformation : Transformation -> value Structure -> result (value Structure);
  (** [structure.to_dict] and [Structure.from_dict(d)] *)
  Structure_to_dict : Structure -> pydict;
  Structure_from_dict : pyval -> result Structure;
  (** [transformation.to_dict] and [transformation_from_dict(d)] *)
  Transformation_to_dict : Transformation -> pydict;
  transformation_from_dict : pyval -> result Transformation;
}.

(** What the module expects of its collaborators' serialisers: reading back
    what was written gives the object again, also when the keys the module
    adds ([history] and [version] to a structure, [input_structure] to a
    transformation) are present. *)
Class Serialisers `{Alchemy} : Prop := {
  Structure_from_to_dict s :
    Structure_from_dict (PDict (Structure_to_dict s)) = Ok s;
  Structure_from_to_dict_extra s h v :
    Structure_from_dict
      (PDict (<["version" := v]> (<["history" := h]> (Structure_to_dict s)))) = Ok s;
  transformation_from_to_dict tr i :
    transformation_from_dict
      (PDict (<["input_structure" := i]> (Transformation_to_dict tr))) = Ok tr;
}.

Definition __version__ : string := "1.0".

(** [v.to_dict] where a structure is expected: a list has no such attribute. *)
Definition value_to_dict `{Alchemy} (v : value Structure) : result pydict :=
  match v with
  | One s => Ok (Structure_to_dict s)
  | Many _ => Raise (AttributeError "'list' object has no attribute 'to_dict'")
  end.

(** The shape of a history entry: the serialised transformation [tr] with
    the serialised structure [s] it was applied to under [input_structure]. *)
Definition history_entry `{Alchemy} (s : Structure) (tr : Transformation) : pyval :=
  PDict (<["input_structure" := PDict (Structure_to_dict s)]>
           (Transformation_to_dict tr)).

(** What the constructor reads out of one entry of a recorded history: the
    structure under [input_structure] and the transformation itself. *)
Definition rehydrates `{Alchemy} (h : pyval) (step : Structure * Transformation) : Prop :=
  exists i, subscript h "input_structure" = Ok i /\
            Structure_from_dict i = Ok step.1 /\
            transformation_from_dict h = Ok step.2.

(** ** class TransformedStructure *)

Module TransformedStructure.
Section methods.
Context `{Alchemy}.

Record t : Type := mk {
  _source : pyval;
  _structures : list (value Structure);
  _transformations : list Transformation;
  _redo_trans : list Transformation;
}.

Definition set_source (v : pyval) (self : t) : t :=
  mk v (_structures self) (_transformations self) (_redo_trans self).
Definition set_structures (l : list (value Structure)) (self : t) : t :=
  mk (_source self) l (_transformations self) (_redo_trans self).
Definition set_transformations (l : list Transformation) (self : t) : t :=
  mk (_source self) (_structures self) l (_redo_trans self).
Definition set_redo_trans (l : list Transformation) (self : t) : t :=
  mk (_source self) (_structures self) (_transformations self) l.

(** [self._structures.append(s)] and its siblings *)
Definition structures_append (s : value Structure) (self : t) : t :=
  set_structures (_structures self ++ [s]) self.
Definition transformations_append (tr : Transformation) (self : t) : t :=
  set_transformations (_transformations self ++ [tr]) self.
Definition redo_trans_append (tr : Transformation) (self : t) : t :=
  set_redo_trans (_redo_trans self ++ [tr]) self.

(** [self._structures.pop()] and its siblings *)
Definition structures_pop : M t (value Structure) :=
  self ← get;
  '(x, rest) ← lift (PyList.pop (_structures self));
  modify (set_structures rest);;
  mret x.
Definition transformations_pop : M t Transformation :=
  self ← get;
  '(x, rest) ← lift (PyList.pop (_transformations self));
  modify (set_transformations rest);;
  mret x.
Definition redo_trans_pop : M t Transformation :=
  self ← get;
  '(x, rest) ← lift (PyList.pop (_redo_trans self));
  modify (set_redo_trans rest);;
  mret x.

(** The history invariant: one structure more than transformations. *)
Definition invariant (self : t) : Prop :=
  length (_structures self) = length (_transformations self) + 1.

Definition append_transformation
    (transformation : Transformation) (clear_redo : bool) : M t unit :=
  self ← get;
  last_s ← lift (PyList.index (_structures self) (-1));
  new_s ← lift (apply_transformation transformation last_s);
  modify (structures_append new_s);;
  modify (transformations_append transformation);;
  if clear_redo then modify (set_redo_trans []) else mret tt.

Definition extend_transformations (transformations : list Transformation) : M t unit :=
  for_each transformations (fun tr => append_transformation tr true).

Definition undo_last_transformation : M t unit :=
  self ← get;
  if decide (length (_transformations self) = 0)
  then raise (IndexError "Can't undo. Already at oldest change.")
  else
    structures_pop;;
    tr ← transformations_pop;
    modify (redo_trans_append tr).

Definition redo_next_transformation : M t unit :=
  self ← get;
  if decide (length (_redo_trans self) = 0)
  then raise (IndexError "Can't undo. Already at latest change.")
  else
    tr ← redo_trans_pop;
    append_transformation tr false.

Definition __getitem__ (index : Z) : M t (value Structure * list Transformation) :=
  self ← get;
  s ← lift (PyList.index (_structures self) index);
  mret (s, PyList.slice_to (_transformations self) index).

Definition __len__ : M t nat :=
  self ← get; mret (length (_structures self)).

Definition structures : M t (list (value Structure)) := gets _structures.
Definition transformations : M t (list Transformation) := gets _transformations.

Definition final_structure : M t (value Structure) :=
  self ← get; lift (PyList.index (_structures self) (-1)).

(** One round of the loop of [__init__] over [history[1:]]. *)
Definition init_history_step (h : pyval) : M t unit :=
  i ← lift (subscript h "input_structure");
  s ← lift (Structure_from_dict i);
  modify (structures_append (One s));;
  tr ← lift (transformation_from_dict h);
  modify (transformations_append tr).

(** The body of [__init__], run on the object being initialised. *)
Definition init_body (structure : value Structure)
    (transformations : list Transformation) (history : option (list pyval)) : M t unit :=
  let history := match history with None => [] | Some h => h end in
  modify (set_source (PDict ∅));;
  modify (set_structures []);;
  modify (set_transformations []);;
  modify (set_redo_trans []);;
  match history with
  | [] => mret tt
  | h0 :: steps =>
      modify (set_source h0);;
      for_each steps init_history_step
  end;;
  modify (structures_append structure);;
  for_each transformations (fun tr => append_transformation tr true).

Definition blank : t := mk PNone [] [] [].

(** [TransformedStructure(structure, transformations, history)]: the new
    object, or the exception that escaped the constructor. *)
Definition __init__ (structure : value Structure)
    (transformations : list Transformation) (history : option (list pyval)) : result t :=
  match init_body structure transformations history blank with
  | (Ok _, self) => Ok self
  | (Raise e, _) => Raise e
  end.

(** One round of the loop of [to_dict] over [enumerate(self._transformations)]. *)
Definition to_dict_step (self : t) (history : list pyval)
    (it : nat * Transformation) : M t (list pyval) :=
  let '(i, tr) := it in
  let tdict := Transformation_to_dict tr in
  s ← lift (PyList.index (_structures self) (Z.of_nat i));
  sd ← lift (value_to_dict s);
  let tdict := <["input_structure" := PDict sd]> tdict in
  mret (history ++ [PDict tdict]).

(** The [to_dict] property. *)
Definition to_dict : M t pydict :=
  self ← get;
  last_s ← lift (PyList.index (_structures self) (-1));
  d ← lift (value_to_dict last_s);
  history ← for_acc (imap (fun i tr => (i, tr)) (_transformations self))
                    [_source self] (to_dict_step self);
  let d := <["history" := PList history]> d in
  let d := <["version" := PStr __version__]> d in
  mret d.

(** The static method [from_dict]. *)
Definition from_dict (d : pyval) : result t :=
  s ← Structure_from_dict d;
  h ← subscript d "history";
  h ← as_history h;
  __init__ (One s) [] h.

(** A call [x.__getitem__(a1, ..., an)] of the bound method with the
    positional arguments [args]; an argument is an integer or some other
    object.  The method takes exactly one argument besides [self]. *)
Definition call___getitem__ {Obj : Type} (args : list (Z + Obj))
    : M t (value Structure * list Transformation) :=
  match args with
  | [inl index] => __getitem__ index
  | [inr _] => raise (TypeError "list indices must be integers")
  | [_; _] => raise (TypeError "__getitem__() takes exactly 2 arguments (3 given)")
  | _ => raise (TypeError "__getitem__() takes exactly 2 arguments")
  end.

(** A history in which every structure after the first is what the
    transformation before it returns on the structure before it. *)
Definition consistent (self : t) : Prop :=
  forall i s s' tr,
    _structures self !! i = Some s ->
    _structures self !! (S i) = Some s' ->
    _transformations self !! i = Some tr ->
    apply_transformation tr s = Ok s'.

End methods.
End TransformedStructure.

(** ** class TransformedStructureTree

    The tree holds references to [TransformedStructure] objects; the objects
    themselves live in a store, so that two entries of the tree's list may be
    one and the same object.  The store is the list of the objects allocated
    so far and a reference is a position in it. *)

Module TransformedStructureTree.
Section methods.
Context `{Alchemy}.

Record t : Type := mk {
  store : list TransformedStructure.t;
  _transformed_structures : list nat;
}.

Definition set_store (h : list TransformedStructure.t) (self : t) : t :=
  mk h (_transformed_structures self).
Definition set_transformed_structures (l : list nat) (self : t) : t :=
  mk (store self) l.

(** Run a method of the object at reference [x].  A reference the tree holds
    is always to an object of the store (see [wf]); the other case is there
    to make the function total. *)
Definition on {A} (x : nat) (m : M TransformedStructure.t A) : M t A :=
  fun self =>
    match store self !! x with
    | Some o => let '(r, o') := m o in (r, set_store (<[x := o']> (store self)) self)
    | None => (Raise (Failure "SystemError" "no such object"), self)
    end.

(** Allocate the object a constructor call returned. *)
Definition new (r : result TransformedStructure.t) : M t nat :=
  fun self =>
    match r with
    | Ok o => (Ok (length (store self)), set_store (store self ++ [o]) self)
    | Raise e => (Raise e, self)
    end.

Definition init_body (structures_list : list (value Structure))
    (transformations : list Transformation)
    (histories : option (list (list pyval))) : M t unit :=
  modify (set_transformed_structures []);;
  match histories with
  | Some ((_ :: _) as histories) =>
      if decide (length structures_list = length histories)
      then
        for_each (seq 0 (length structures_list)) (fun i =>
          s ← lift (PyList.index structures_list (Z.of_nat i));
          h ← lift (PyList.index histories (Z.of_nat i));
          x ← new (TransformedStructure.__init__ s transformations (Some h));
          modify (fun self =>
            set_transformed_structures (_transformed_structures self ++ [x]) self))
      else raise (ValueError "histories must have same length as structures_list")
  | _ =>
      for_each (seq 0 (length structures_list)) (fun i =>
        s ← lift (PyList.index structures_list (Z.of_nat i));
        x ← new (TransformedStructure.__init__ s transformations None);
        modify (fun self =>
          set_transformed_structures (_transformed_structures self ++ [x]) self))
  end.

(** [TransformedStructureTree(structures_list, transformations, histories)],
    built in the store [h]. *)
Definition __init__ (h : list TransformedStructure.t)
    (structures_list : list (value Structure))
    (transformations : list Transformation)
    (histories : option (list (list pyval))) : result t :=
  match init_body structures_list transformations histories (mk h []) with
  | (Ok _, self) => Ok self
  | (Raise e, _) => Raise e
  end.

Definition undo_last_transformation : M t unit :=
  self ← get;
  for_each (_transformed_structures self) (fun x =>
    on x TransformedStructure.undo_last_transformation).

Definition redo_next_transformation : M t unit :=
  self ← get;
  for_each (_transformed_structures self) (fun x =>
    on x TransformedStructure.redo_next_transformation).

(** [[x.__getitem__(self, index) for x in self._transformed_structures]] *)
Definition __getitem__ (index : Z)
    : M t (list (value Structure * list Transformation)) :=
  self ← get;
  comprehension (_transformed_structures self) (fun x =>
    on x (TransformedStructure.call___getitem__ [inr self; inl index])).

Definition __len__ : M t nat :=
  self ← get; mret (length (_transformed_structures self)).

(** One round of the inner loop [for new_struct in new_structs] run for the
    member [x]; [new_tstruct = x] binds the member itself, not a copy. *)
Definition append_branch (transformation : Transformation) (x : nat)
    (new_transformed_structures : list nat) (new_struct : Structure) : M t (list nat) :=
  let new_tstruct := x in
  on new_tstruct
    (modify (TransformedStructure.structures_append (One new_struct)));;
  on new_tstruct
    (modify (TransformedStructure.transformations_append transformation));;
  mret (new_transformed_structures ++ [new_tstruct]).

(** One round of the loop of [append_transformation] over the members; its
    accumulator holds the locals [new_transformed_structures] and
    [structures_to_delete]. *)
Definition append_member (transformation : Transformation) (clear_redo : bool)
    (acc : list nat * list nat) (x : nat) : M t (list nat * list nat) :=
  let '(new_transformed_structures, structures_to_delete) := acc in
  last_s ← on x TransformedStructure.final_structure;
  new_structs ← lift (apply_transformation transformation last_s);
  acc ← match new_structs with
        | Many new_structs =>
            let structures_to_delete := structures_to_delete ++ [x] in
            new_transformed_structures ←
              for_acc new_structs new_transformed_structures
                (append_branch transformation x);
            mret (new_transformed_structures, structures_to_delete)
        | One _ =>
            on x (modify (TransformedStructure.structures_append new_structs));;
            on x (modify (TransformedStructure.transformations_append transformation));;
            mret (new_transformed_structures, structures_to_delete)
        end;
  (if clear_redo
   then on x (modify (TransformedStructure.set_redo_trans []))
   else mret tt);;
  mret acc.

Definition append_transformation
    (transformation : Transformation) (clear_redo : bool) : M t unit :=
  self ← get;
  '(new_transformed_structures, structures_to_delete) ←
    for_acc (_transformed_structures self) ([], [])
      (append_member transformation clear_redo);
  for_each structures_to_delete (fun x =>
    self ← get;
    l ← lift (PyList.remove x (_transformed_structures self));
    modify (set_transformed_structures l));;
  modify (fun self =>
    set_transformed_structures
      (_transformed_structures self ++ new_transformed_structures) self).

Definition extend_transformations (transformations : list Transformation) : M t unit :=
  for_each transformations (fun tr => append_transformation tr true).

(** The objects [get_vasp_input] hands to each member's [__getitem__]. *)
Inductive argument (VaspInputSet : Type) : Type :=
  | ArgTree (self : t)
  | ArgInputSet (vasp_input_set : VaspInputSet)
  | ArgFlag (generate_potcar : bool).
Arguments ArgTree {VaspInputSet} self.
Arguments ArgInputSet {VaspInputSet} vasp_input_set.
Arguments ArgFlag {VaspInputSet} generate_potcar.

(** [[x.__getitem__(self, vasp_input_set, generate_potcar) for x in ...]] *)
Definition get_vasp_input {VaspInputSet : Type}
    (vasp_input_set : VaspInputSet) (generate_potcar : bool)
    : M t (list (value Structure * list Transformation)) :=
  self ← get;
  comprehension (_transformed_structures self) (fun x =>
    on x (TransformedStructure.call___getitem__
            [inr (ArgTree self); inr (ArgInputSet vasp_input_set);
             inr (ArgFlag generate_potcar)])).

(** Every reference the tree holds is to an object in the store. *)
Definition wf (self : t) : Prop :=
  Forall (fun x => is_Some (store self !! x)) (_transformed_structures self).

(** What one round of the sweep leaves of the member [o] when the
    transformation returned [v] on its final structure: the returned
    structure, or every structure of the returned list, appended in place
    together with as many copies of the transformation. *)
Definition advance (transformation : Transformation) (clear_redo : bool)
    (o : TransformedStructure.t) (v : value Structure) : TransformedStructure.t :=
  let news := match v with One _ => [v] | Many outs => One <$> outs end in
  TransformedStructure.mk
    (TransformedStructure._source o)
    (TransformedStructure._structures o ++ news)
    (TransformedStructure._transformations o ++ replicate (length news) transformation)
    (if clear_redo then [] else TransformedStructure._redo_trans o).

End methods.
End TransformedStructureTree.

Module TS := TransformedStructure.
Module Tree := TransformedStructureTree.

(** ** class PoscarTransformedStructure

    The POSCAR parser is a collaborator: [Poscar.from_string] gives an object
    with the fields [true_names] and [struct], or raises.  The reading of the
    clock, [str(datetime.datetime.utcnow())], is an argument. *)

Module PoscarTransformedStructure.

(** The [re.sub] call of the class: every single quote character of the
    text becomes a double quote character (code 34). *)
Fixpoint sub_quotes (s : string) : string :=
  match s with
  | EmptyString => EmptyString
  | String c s' =>
      String (if Ascii.eqb c "'"%char then "034"%char else c) (sub_quotes s')
  end.

Section methods.
Context `{Alchemy}.

Record Poscar : Type := mkPoscar {
  true_names : bool;
  struct : Structure;
}.

Variable Poscar_from_string : string -> result Poscar.

Definition source_info (utcnow raw_string : string) : pydict :=
  {[ "source" := PStr "uploaded POSCAR";
     "datetime" := PStr utcnow;
     "original_file" := PStr raw_string ]}.

Definition __init__ (utcnow : string) (poscar_string : string)
    (transformations : list Transformation) : result TS.t :=
  p ← Poscar_from_string poscar_string;
  if negb (true_names p)
  then Raise (ValueError
    "Transformation can be craeted only from POSCAR strings with proper VASP5 element symbols.")
  else
    let raw_string := sub_quotes poscar_string in
    let s := struct p in
    TS.__init__ (One s) transformations
      (Some [PDict (source_info utcnow raw_string)]).

End methods.
End PoscarTransformedStructure.

(** ** A concrete instance, for running the methods

    Structures are strings.  [Append sfx] is one-to-one, [Split outs] is
    one-to-many, [Reject bad] raises on the structure [bad] and is one-to-one
    elsewhere.  No transformation accepts a list where a structure is due. *)

Module Scenario.

Inductive transformation : Type :=
  | Append (sfx : string)
  | Split (outs : list string)
  | Reject (bad : string).

Definition apply (tr : transformation) (v : value string) : result (value string) :=
  match v with
  | Many _ => Raise (AttributeError "'list' object has no attribute 'sites'")
  | One s =>
      match tr with
      | Append sfx => Ok (One (s +:+ sfx))
      | Split outs => Ok (Many outs)
      | Reject bad =>
          if decide (s = bad) then Raise (ValueError "unsupported structure")
          else Ok (One s)
      end
  end.

Definition structure_to_dict (s : string) : pydict := {[ "sites" := PStr s ]}.

Definition structure_from_dict (d : pyval) : result string :=
  v ← subscript d "sites";
  match v with
  | PStr s => Ok s
  | _ => Raise (TypeError "sites must be a string")
  end.

Definition trans_to_dict (tr : transformation) : pydict :=
  match tr with
  | Append sfx => {[ "name" := PStr "Append"; "init_args" := PStr sfx ]}
  | Split outs => {[ "name" := PStr "Split"; "init_args" := PList (PStr <$> outs) ]}
  | Reject bad => {[ "name" := PStr "Reject"; "init_args" := PStr bad ]}
  end.

Fixpoint strings_of (l : list pyval) : result (list string) :=
  match l with
  | [] => Ok []
  | PStr s :: l' => r ← strings_of l'; Ok (s :: r)
  | _ :: _ => Raise (TypeError "init_args must hold strings")
  end.

Definition trans_from_dict (d : pyval) : result transformation :=
  name ← subscript d "name";
  args ← subscript d "init_args";
  match name, args with
  | PStr n, PStr arg =>
      if String.eqb n "Append" then Ok (Append arg)
      else if String.eqb n "Reject" then Ok (Reject arg)
      else Raise (ValueError "unknown transformation")
  | PStr n, PList l =>
      if String.eqb n "Split" then outs ← strings_of l; Ok (Split outs)
      else Raise (ValueError "unknown transformation")
  | _, _ => Raise (ValueError "unknown transformation")
  end.

#[global] Instance alchemy : Alchemy := {|
  Structure := string;
  Transformation := transformation;
  apply_transformation := apply;
  Structure_to_dict := structure_to_dict;
  Structure_from_dict := structure_from_dict;
  Transformation_to_dict := trans_to_dict;
  transformation_from_dict := trans_from_dict;
|}.

Definition source : pyval := PDict {[ "source" := PStr "uploaded POSCAR" ]}.

(** [TransformedStructure("A0", [Append "1"; Append "2"])], written out. *)
Definition two_steps : TS.t :=
  TS.mk (PDict ∅) [One "A0"; One "A01"; One "A012"] [Append "1"; Append "2"] [].

(** [TransformedStructure("B", [], history)] for a history that records
    [Append "1"] applied to ["A0"]; the structure handed in is ["B"]. *)
Definition seeded_history : list pyval :=
  [source;
   PDict (<["input_structure" := PDict (structure_to_dict "A0")]>
            (trans_to_dict (Append "1")))].
Definition seeded : TS.t :=
  TS.mk source [One "A0"; One "B"] [Append "1"] [].

(** [TransformedStructureTree(["A0", "A1"], [])], written out, and the
    tree with no members. *)
Definition two_members : Tree.t :=
  Tree.mk [TS.mk (PDict ∅) [One "A0"] [] []; TS.mk (PDict ∅) [One "A1"] [] []]
          [0; 1].
Definition no_members : Tree.t := Tree.mk [] [].

(** An object with one undone step that raises when it is redone. *)
Definition pending_reject : TS.t :=
  TS.mk (PDict ∅) [One "A0"] [] [Reject "A0"].

(** Trees of two objects: one with history and one without, and two with
    history. *)
Definition mixed_members : Tree.t :=
  Tree.mk [two_steps; TS.mk (PDict ∅) [One "A1"] [] []] [0; 1].
Definition grown_members : Tree.t :=
  Tree.mk [two_steps; two_steps] [0; 1].

(** A parser for the runs: the text is the structure; a text that starts
    with ["?"] stands for a POSCAR without element symbols. *)
Definition poscar_from_string (text : string)
    : result (PoscarTransformedStructure.Poscar (H := alchemy)) :=
  match text with
  | EmptyString => Raise (ValueError "empty POSCAR")
  | String c _ =>
      Ok (PoscarTransformedStructure.mkPoscar (negb (Ascii.eqb c "?"%char)) text)
  end.

End Scenario.

(** Computations on a tree that neither allocate nor touch the tree's list. *)
Definition keeps `{Alchemy} {A} (m : M Tree.t A) : Prop :=
  forall self,
    length (Tree.store (m self).2) = length (Tree.store self) /\
    Tree._transformed_structures (m self).2 = Tree._transformed_structures self.

(** * Properties *)

(** ** The monad and the list primitives *)

Ltac unfold_monad :=
  unfold mbind, M_bind, mret, M_ret, result_bind, result_ret,
         raise, get, gets, modify, lift in *.

Lemma bind_Ok_inv {S A B} (m : M S A) (k : A -> M S B) s b s' :
  (m ≫= k) s = (Ok b, s') ->
  exists a s1, m s = (Ok a, s1) /\ k a s1 = (Ok b, s').
Proof.
  unfold mbind, M_bind. destruct (m s) as [[a|e] s1]; intros Hk.
  - eauto.
  - discriminate.
Qed.

Lemma for_each_cons {S A} (body : A -> M S unit) x xs s :
  for_each (x :: xs) body s =
  match body x s with
  | (Ok _, s') => for_each xs body s'
  | (Raise e, s') => (Raise e, s')
  end.
Proof.
  unfold for_each. simpl. unfold mbind, M_bind.
  by destruct (body x s) as [[[]|e] s'].
Qed.

(** A property that every iteration keeps, raising or not, holds after the loop. *)
Lemma for_each_preserves {S A} (P : S -> Prop) (body : A -> M S unit) xs :
  (forall x s, P s -> P (body x s).2) ->
  forall s, P s -> P (for_each xs body s).2.
Proof.
  intros Hbody. induction xs as [|x xs IH]; intros s Hs; [exact Hs|].
  rewrite for_each_cons. specialize (Hbody x s Hs).
  destruct (body x s) as [[[]|e] s1]; simpl in *; auto.
Qed.

(** A property that every completed iteration keeps holds after a completed loop. *)
Lemma for_each_Ok_preserves {S A} (P : S -> Prop) (body : A -> M S unit) xs :
  (forall x s s', P s -> body x s = (Ok tt, s') -> P s') ->
  forall s s', P s -> for_each xs body s = (Ok tt, s') -> P s'.
Proof.
  intros Hbody. induction xs as [|x xs IH]; intros s s' Hs Hrun.
  - injection Hrun as <-. exact Hs.
  - rewrite for_each_cons in Hrun.
    destruct (body x s) as [[[]|e] s1] eqn:Hx; [|discriminate].
    eapply IH; [|exact Hrun]. eapply Hbody; eauto.
Qed.

Section pylist.
Context {A : Type}.
Implicit Types (l : list A) (x : A).

Lemma index_last_app l x : PyList.index (l ++ [x]) (-1) = Ok x.
Proof.
  unfold PyList.index. rewrite length_app. simpl.
  replace (Z.of_nat (length l + 1) + -1)%Z with (Z.of_nat (length l)) by lia.
  destruct (0 <=? Z.of_nat (length l))%Z eqn:H0; [|apply Z.leb_gt in H0; lia].
  destruct (Z.of_nat (length l) <? Z.of_nat (length l + 1))%Z eqn:H1;
    [|apply Z.ltb_ge in H1; lia].
  simpl. rewrite Nat2Z.id, lookup_app_r by lia.
  by rewrite Nat.sub_diag.
Qed.

Lemma index_last l : PyList.index l (-1) =
  match last l with
  | Some x => Ok x
  | None => Raise (IndexError "list index out of range")
  end.
Proof.
  destruct l as [|y l] using rev_ind; [reflexivity|].
  by rewrite index_last_app, last_snoc.
Qed.

Lemma pop_app l x : PyList.pop (l ++ [x]) = Ok (x, l).
Proof. unfold PyList.pop. by rewrite last_snoc, removelast_last. Qed.

Lemma index_nonneg l (i : nat) x :
  l !! i = Some x -> PyList.index l (Z.of_nat i) = Ok x.
Proof.
  intros Hi. pose proof (lookup_lt_Some _ _ _ Hi) as Hlt.
  unfold PyList.index.
  destruct (Z.of_nat i <? 0)%Z eqn:Hneg; [apply Z.ltb_lt in Hneg; lia|].
  destruct (0 <=? Z.of_nat i)%Z eqn:H0; [|apply Z.leb_gt in H0; lia].
  destruct (Z.of_nat i <? Z.of_nat (length l))%Z eqn:H1; [|apply Z.ltb_ge in H1; lia].
  simpl. by rewrite Nat2Z.id, Hi.
Qed.

Lemma index_too_large l (i : Z) :
  (Z.of_nat (length l) <= i)%Z ->
  PyList.index l i = Raise (IndexError "list index out of range").
Proof.
  intros Hi. unfold PyList.index.
  destruct (i <? 0)%Z eqn:Hneg; [apply Z.ltb_lt in Hneg; lia|].
  destruct (i <? Z.of_nat (length l))%Z eqn:H1; [apply Z.ltb_lt in H1; lia|].
  by rewrite andb_false_r.
Qed.

Lemma slice_to_nonneg l (i : nat) : PyList.slice_to l (Z.of_nat i) = take i l.
Proof.
  unfold PyList.slice_to.
  destruct (Z.of_nat i <? 0)%Z eqn:Hneg; [apply Z.ltb_lt in Hneg; lia|].
  by rewrite Nat2Z.id.
Qed.
End pylist.

(** ** TransformedStructure: what each method computes *)

Section lineage_equations.
Context `{Alchemy}.
Implicit Types (self : TS.t) (tr : Transformation) (s : value Structure).

Lemma final_structure_eq self :
  TS.final_structure self =
  (match last (TS._structures self) with
   | Some s => Ok s
   | None => Raise (IndexError "list index out of range")
   end, self).
Proof. unfold TS.final_structure. unfold_monad. by rewrite index_last. Qed.

Lemma append_transformation_eq tr (clear_redo : bool) self :
  TS.append_transformation tr clear_redo self =
  match last (TS._structures self) with
  | None => (Raise (IndexError "list index out of range"), self)
  | Some s =>
      match apply_transformation tr s with
      | Raise e => (Raise e, self)
      | Ok new_s =>
          (Ok tt, TS.mk (TS._source self) (TS._structures self ++ [new_s])
                        (TS._transformations self ++ [tr])
                        (if clear_redo then [] else TS._redo_trans self))
      end
  end.
Proof.
  unfold TS.append_transformation. unfold_monad. rewrite index_last.
  destruct (last (TS._structures self)) as [s|]; [|done].
  destruct (apply_transformation tr s) as [new_s|e]; [|done].
  by destruct clear_redo.
Qed.

Lemma undo_last_transformation_oldest self :
  TS._transformations self = [] ->
  TS.undo_last_transformation self =
  (Raise (IndexError "Can't undo. Already at oldest change."), self).
Proof. intros Htr. unfold TS.undo_last_transformation. unfold_monad. by rewrite Htr. Qed.

Lemma undo_last_transformation_step src ss s trs tr redo :
  TS.undo_last_transformation (TS.mk src (ss ++ [s]) (trs ++ [tr]) redo) =
  (Ok tt, TS.mk src ss trs (redo ++ [tr])).
Proof.
  unfold TS.undo_last_transformation, TS.structures_pop, TS.transformations_pop.
  unfold_monad. simpl. rewrite length_app. simpl.
  destruct (decide (length trs + 1 = 0)) as [Hz|_]; [lia|].
  simpl. rewrite pop_app. simpl. by rewrite pop_app.
Qed.

Lemma redo_next_transformation_latest self :
  TS._redo_trans self = [] ->
  TS.redo_next_transformation self =
  (Raise (IndexError "Can't undo. Already at latest change."), self).
Proof. intros Hr. unfold TS.redo_next_transformation. unfold_monad. by rewrite Hr. Qed.

Lemma redo_next_transformation_step src ss trs redo tr :
  TS.redo_next_transformation (TS.mk src ss trs (redo ++ [tr])) =
  TS.append_transformation tr false (TS.mk src ss trs redo).
Proof.
  unfold TS.redo_next_transformation, TS.redo_trans_pop.
  unfold_monad. simpl. rewrite length_app. simpl.
  destruct (decide (length redo + 1 = 0)) as [Hz|_]; [lia|].
  simpl. by rewrite pop_app.
Qed.
End lineage_equations.

(** ** TransformedStructure: the properties *)

Section lineage.
Context `{Alchemy}.
Implicit Types (self : TS.t) (tr : Transformation) (s : value Structure).

(** C4. When the transformation raises on the current (last) structure,
    [append_transformation] raises that very exception and the object is
    left as it was: structures, transformations and redo list. *)
Theorem append_transformation_failure_transactional
    self tr (clear_redo : bool) s e :
  (TS.final_structure self).1 = Ok s ->
  apply_transformation tr s = Raise e ->
  TS.append_transformation tr clear_redo self = (Raise e, self).
Proof.
  rewrite final_structure_eq, append_transformation_eq. simpl.
  destruct (last (TS._structures self)) as [s'|]; [|discriminate].
  intros [= ->] ->. reflexivity.
Qed.

Lemma append_transformation_invariant self tr (clear_redo : bool) :
  TS.invariant self -> TS.invariant (TS.append_transformation tr clear_redo self).2.
Proof.
  intros Hinv. rewrite append_transformation_eq.
  destruct (last (TS._structures self)) as [s|]; [|exact Hinv].
  destruct (apply_transformation tr s) as [new_s|e]; [|exact Hinv].
  unfold TS.invariant in *. simpl. rewrite !length_app. simpl. lia.
Qed.

Lemma undo_last_transformation_invariant self :
  TS.invariant self -> TS.invariant (TS.undo_last_transformation self).2.
Proof.
  destruct self as [src ss trs redo]. unfold TS.invariant. simpl. intros Hinv.
  destruct trs as [|tr trs _] using rev_ind.
  { by rewrite undo_last_transformation_oldest. }
  destruct ss as [|s ss _] using rev_ind; [simpl in Hinv; lia|].
  rewrite undo_last_transformation_step. simpl.
  rewrite !length_app in Hinv. simpl in Hinv. lia.
Qed.

Lemma redo_next_transformation_invariant self :
  TS.invariant self -> TS.invariant (TS.redo_next_transformation self).2.
Proof.
  destruct self as [src ss trs redo]. intros Hinv.
  destruct redo as [|tr redo _] using rev_ind.
  { by rewrite redo_next_transformation_latest. }
  rewrite redo_next_transformation_step.
  by apply append_transformation_invariant.
Qed.

Lemma extend_transformations_invariant self trs :
  TS.invariant self -> TS.invariant (TS.extend_transformations trs self).2.
Proof.
  unfold TS.extend_transformations. apply for_each_preserves.
  intros tr o. apply append_transformation_invariant.
Qed.

Lemma init_body_invariant structure trs history o self :
  TS.init_body structure trs history o = (Ok tt, self) -> TS.invariant self.
Proof.
  unfold TS.init_body. intros Hrun.
  repeat (apply bind_Ok_inv in Hrun as (? & ? & [= <- <-] & Hrun)).
  apply bind_Ok_inv in Hrun as ([] & o1 & Hhist & Hrun).
  apply bind_Ok_inv in Hrun as ([] & o2 & [= <-] & Hrun).
  assert (length (TS._structures o1) = length (TS._transformations o1)) as Hlen.
  { destruct (match history with Some h => h | None => [] end) as [|h0 steps].
    - by injection Hhist as <-.
    - apply bind_Ok_inv in Hhist as ([] & o0 & [= <-] & Hhist).
      refine (for_each_Ok_preserves
        (fun o => length (TS._structures o) = length (TS._transformations o))
        _ _ _ _ _ _ Hhist); [|reflexivity].
      clear. intros h s s' Hlen Hstep. unfold TS.init_history_step in Hstep.
      apply bind_Ok_inv in Hstep as (i & ? & Hi & Hstep).
      unfold lift in Hi. injection Hi as Hi <-.
      apply bind_Ok_inv in Hstep as (st & ? & Hst & Hstep).
      unfold lift in Hst. injection Hst as Hst <-.
      apply bind_Ok_inv in Hstep as ([] & ? & [= <-] & Hstep).
      apply bind_Ok_inv in Hstep as (tr & ? & Htr & Hstep).
      unfold lift in Htr. injection Htr as Htr <-.
      injection Hstep as <-. simpl. rewrite !length_app. simpl. lia. }
  assert (TS.invariant (TS.structures_append structure o1)) as Hinv.
  { unfold TS.invariant. simpl. rewrite length_app. simpl. lia. }
  pose proof (for_each_preserves TS.invariant
    (fun tr => TS.append_transformation tr true) trs
    (fun tr o' => append_transformation_invariant o' tr true) _ Hinv) as Hloop.
  by rewrite Hrun in Hloop.
Qed.

(** C3. A [TransformedStructure] holds one structure more than it holds
    transformations (so [len(self)] is the number of transformations plus
    one and the structures are never empty): the constructor establishes
    this, and [append_transformation], [extend_transformations],
    [undo_last_transformation] and [redo_next_transformation] keep it,
    whether they return or raise. *)
Theorem history_invariant :
  (forall structure trs history self,
      TS.__init__ structure trs history = Ok self -> TS.invariant self) /\
  (forall self, TS.invariant self ->
      (TS.__len__ self).1 = Ok (length (TS._transformations self) + 1) /\
      (forall tr (clear_redo : bool),
          TS.invariant (TS.append_transformation tr clear_redo self).2) /\
      (forall trs, TS.invariant (TS.extend_transformations trs self).2) /\
      TS.invariant (TS.undo_last_transformation self).2 /\
      TS.invariant (TS.redo_next_transformation self).2).
Proof.
  split.
  - intros structure trs history self. unfold TS.__init__.
    destruct (TS.init_body structure trs history TS.blank) as [[[]|e] o] eqn:Hrun;
      [|discriminate].
    intros [= <-]. by eapply init_body_invariant.
  - intros self Hinv. repeat split.
    + unfold TS.__len__. unfold_monad. simpl. by rewrite Hinv.
    + intros. by apply append_transformation_invariant.
    + intros. by apply extend_transformations_invariant.
    + by apply undo_last_transformation_invariant.
    + by apply redo_next_transformation_invariant.
Qed.

Lemma undo_last_transformation_pops self tr :
  TS.invariant self ->
  last (TS._transformations self) = Some tr ->
  exists s, last (TS._structures self) = Some s /\
    TS.undo_last_transformation self =
    (Ok tt, TS.mk (TS._source self) (removelast (TS._structures self))
                  (removelast (TS._transformations self))
                  (TS._redo_trans self ++ [tr])).
Proof.
  destruct self as [src ss trs redo]. unfold TS.invariant. simpl.
  intros Hinv Hlast.
  destruct trs as [|tr' trs _] using rev_ind; [discriminate|].
  rewrite last_snoc in Hlast. injection Hlast as ->.
  destruct ss as [|s ss _] using rev_ind; [simpl in Hinv; lia|].
  exists s. rewrite last_snoc, !removelast_last.
  split; [done|]. apply undo_last_transformation_step.
Qed.

Lemma times_undo self k :
  TS.invariant self ->
  k <= length (TS._transformations self) ->
  exists self_k,
    times k TS.undo_last_transformation self = (Ok tt, self_k) /\
    TS.invariant self_k /\
    length (TS._transformations self_k) = length (TS._transformations self) - k.
Proof.
  intros Hinv. induction k as [|k IH]; intros Hk.
  - exists self. repeat split; [done|lia].
  - destruct IH as (self_k & Hrun & Hinv_k & Hlen); [lia|].
    destruct (last (TS._transformations self_k)) as [tr|] eqn:Hlast.
    2: { apply last_None in Hlast. rewrite Hlast in Hlen. simpl in Hlen. lia. }
    destruct (undo_last_transformation_pops self_k tr Hinv_k Hlast)
      as (s & Hs & Hundo).
    eexists. simpl. unfold mbind, M_bind. rewrite Hrun, Hundo.
    split; [reflexivity|].
    pose proof (undo_last_transformation_invariant self_k Hinv_k) as Hinv'.
    rewrite Hundo in Hinv'. split; [exact Hinv'|]. simpl.
    destruct (TS._transformations self_k) as [|tr' trs _] using rev_ind;
      [discriminate|].
    rewrite removelast_last. rewrite length_app in Hlen. simpl in Hlen. lia.
Qed.

(** C5. With [n >= 1] transformations in the history, the first [n] calls
    of [undo_last_transformation] all return; each one pops the last
    structure and the last transformation and appends that transformation
    to the end of the redo list.  The next call raises [IndexError] (the
    empty-history error) and changes nothing. *)
Theorem undo_last_transformation_n_times self n :
  TS.invariant self ->
  n = length (TS._transformations self) ->
  1 <= n ->
  (forall k, k < n ->
     exists before s tr,
       times k TS.undo_last_transformation self = (Ok tt, before) /\
       last (TS._structures before) = Some s /\
       last (TS._transformations before) = Some tr /\
       TS.undo_last_transformation before =
       (Ok tt, TS.mk (TS._source before) (removelast (TS._structures before))
                     (removelast (TS._transformations before))
                     (TS._redo_trans before ++ [tr]))) /\
  (exists oldest,
     times n TS.undo_last_transformation self = (Ok tt, oldest) /\
     TS.undo_last_transformation oldest =
     (Raise (IndexError "Can't undo. Already at oldest change."), oldest)).
Proof.
  intros Hinv -> Hn. split.
  - intros k Hk.
    destruct (times_undo self k Hinv) as (before & Hrun & Hinv_k & Hlen); [lia|].
    destruct (last (TS._transformations before)) as [tr|] eqn:Hlast.
    2: { apply last_None in Hlast. rewrite Hlast in Hlen. simpl in Hlen. lia. }
    destruct (undo_last_transformation_pops before tr Hinv_k Hlast)
      as (s & Hs & Hundo).
    exists before, s, tr. by repeat split.
  - destruct (times_undo self _ Hinv (le_n _)) as (oldest & Hrun & _ & Hlen).
    exists oldest. split; [exact Hrun|].
    apply undo_last_transformation_oldest.
    rewrite Nat.sub_diag in Hlen. by apply nil_length_inv.
Qed.

(** C6. An [append_transformation] with [clear_redo = True] (the default),
    on a transformation that returns, leaves the redo list empty whatever it
    held, so the next [redo_next_transformation] raises [IndexError].
    [redo_next_transformation] itself pops the last redo entry and appends
    it with [clear_redo = False]: the entries below it are all still there
    afterwards. *)
Theorem append_transformation_clears_redo self tr :
  (forall s new_s,
      (TS.final_structure self).1 = Ok s ->
      apply_transformation tr s = Ok new_s ->
      exists self',
        TS.append_transformation tr true self = (Ok tt, self') /\
        TS._redo_trans self' = [] /\
        TS.redo_next_transformation self' =
        (Raise (IndexError "Can't undo. Already at latest change."), self')) /\
  (forall redo,
      TS._redo_trans self = redo ++ [tr] ->
      TS.redo_next_transformation self =
      TS.append_transformation tr false (TS.set_redo_trans redo self) /\
      TS._redo_trans (TS.redo_next_transformation self).2 = redo).
Proof.
  split.
  - intros s new_s. rewrite final_structure_eq, append_transformation_eq. simpl.
    destruct (last (TS._structures self)) as [s'|]; [|discriminate].
    intros [= ->] ->. eexists. split; [reflexivity|]. split; [reflexivity|].
    by apply redo_next_transformation_latest.
  - intros redo Hredo. destruct self as [src ss trs redo0]. simpl in Hredo.
    subst redo0. rewrite redo_next_transformation_step.
    split; [reflexivity|]. rewrite append_transformation_eq. simpl.
    destruct (last ss) as [s|]; [|reflexivity].
    by destruct (apply_transformation tr s).
Qed.

(** C7 (as the code has it). Redo applies the transformation again to the
    structure undo went back to.  When the last structure is what the last
    transformation returns on the structure before it, undo followed by
    redo gives back the object as it was (structures, transformations and
    redo list), and one more undo gives the state the first undo gave. *)
Theorem undo_redo_roundtrip self tr s_prev s_last :
  TS.invariant self ->
  last (TS._transformations self) = Some tr ->
  last (TS._structures self) = Some s_last ->
  last (removelast (TS._structures self)) = Some s_prev ->
  apply_transformation tr s_prev = Ok s_last ->
  (TS.undo_last_transformation;; TS.redo_next_transformation) self
    = (Ok tt, self) /\
  (TS.undo_last_transformation;; TS.redo_next_transformation;;
   TS.undo_last_transformation) self
    = TS.undo_last_transformation self.
Proof.
  intros Hinv Htr Hs Hprev Happly.
  destruct (undo_last_transformation_pops self tr Hinv Htr) as (s & Hs' & Hundo).
  rewrite Hs in Hs'. injection Hs' as <-.
  assert ((TS.undo_last_transformation;; TS.redo_next_transformation) self
          = (Ok tt, self)) as Hround.
  { unfold mbind, M_bind. rewrite Hundo.
    rewrite redo_next_transformation_step, append_transformation_eq. simpl.
    rewrite Hprev, Happly. f_equal.
    destruct self as [src ss trs redo]. simpl in *.
    destruct trs as [|tr' trs _] using rev_ind; [discriminate|].
    destruct ss as [|s' ss _] using rev_ind; [discriminate|].
    rewrite last_snoc in Htr. rewrite last_snoc in Hs.
    injection Htr as ->. injection Hs as ->.
    by rewrite !removelast_last. }
  split; [exact Hround|].
  unfold mbind, M_bind in *. rewrite Hundo in Hround |- *.
  destruct (TS.redo_next_transformation _) as [[[]|e] self2]; [|discriminate].
  injection Hround as ->. exact Hundo.
Qed.

(** C9. For an index [0 <= i < len(structures)], [self[i]] is the pair of
    [structures[i]] and [transformations[0:i]]; for an index at or above
    [len(structures)] it raises [IndexError].  The object is untouched
    either way. *)
Theorem getitem_snapshot self (i : Z) :
  ((0 <= i < Z.of_nat (length (TS._structures self)))%Z ->
     exists s, TS._structures self !! Z.to_nat i = Some s /\
       TS.__getitem__ i self =
       (Ok (s, take (Z.to_nat i) (TS._transformations self)), self)) /\
  ((Z.of_nat (length (TS._structures self)) <= i)%Z ->
     TS.__getitem__ i self =
     (Raise (IndexError "list index out of range"), self)).
Proof.
  unfold TS.__getitem__. unfold_monad. split.
  - intros Hi.
    destruct (lookup_lt_is_Some_2 (TS._structures self) (Z.to_nat i)) as [s Hs];
      [lia|].
    exists s. split; [exact Hs|].
    remember (Z.to_nat i) as n eqn:Hn.
    assert (i = Z.of_nat n) as -> by lia.
    by rewrite (index_nonneg _ _ _ Hs), slice_to_nonneg.
  - intros Hi. by rewrite index_too_large.
Qed.

Lemma to_dict_loop self all trs : forall k ss acc,
  TS._structures self = One <$> all ->
  drop k all = ss ->
  length trs <= length ss ->
  for_acc (imap (fun i tr => (k + i, tr)) trs) acc (TS.to_dict_step self) self
  = (Ok (acc ++ zip_with history_entry ss trs), self).
Proof.
  induction trs as [|tr trs IH]; intros k ss acc Hall Hdrop Hlen.
  - simpl. unfold_monad. by rewrite zip_with_nil_r, app_nil_r.
  - destruct ss as [|s ss]; [simpl in Hlen; lia|].
    assert (all !! k = Some s) as Hk.
    { rewrite <- (Nat.add_0_r k), <- lookup_drop, Hdrop. done. }
    assert (TS.to_dict_step self acc (k + 0, tr) self
            = (Ok (acc ++ [history_entry s tr]), self)) as Hstep.
    { unfold TS.to_dict_step. unfold_monad. rewrite Nat.add_0_r.
      rewrite (index_nonneg _ k (One s))
        by (rewrite Hall, list_lookup_fmap, Hk; done).
      reflexivity. }
    cbn [imap for_acc]. unfold mbind at 1. unfold M_bind at 1. rewrite Hstep.
    rewrite (imap_ext _ (fun i tr => (S k + i, tr)))
      by (intros; simpl; f_equal; lia).
    rewrite (IH (S k) ss); [by rewrite <- app_assoc|done| |simpl in Hlen; lia].
    rewrite (drop_S _ _ _ Hk) in Hdrop. by injection Hdrop.
Qed.

Lemma init_history_loop `{!Serialisers} : forall ss trs o,
  length ss = length trs ->
  for_each (zip_with history_entry ss trs) TS.init_history_step o
  = (Ok tt, TS.mk (TS._source o) (TS._structures o ++ (One <$> ss))
                  (TS._transformations o ++ trs) (TS._redo_trans o)).
Proof.
  induction ss as [|s ss IH]; intros [|tr trs] o Hlen; try discriminate.
  - simpl. unfold_monad. destruct o. simpl. by rewrite !app_nil_r.
  - assert (TS.init_history_step (history_entry s tr) o
            = (Ok tt, TS.transformations_append tr
                        (TS.structures_append (One s) o))) as Hstep.
    { unfold TS.init_history_step, history_entry, subscript. unfold_monad.
      rewrite lookup_insert_eq, Structure_from_to_dict.
      by rewrite transformation_from_to_dict. }
    cbn [zip_with]. rewrite for_each_cons, Hstep.
    rewrite IH by (simpl in Hlen; lia).
    destruct o. simpl. by rewrite <- !app_assoc.
Qed.

(** C8. For an object whose structures are all single structures, and
    collaborators whose serialisers read back what they write, [to_dict]
    returns the final structure's dict with [history] (the source first,
    then one entry per transformation carrying the structure it was applied
    to) and [version] added, and [from_dict] of that dict is the object
    again with an empty redo list: same final structure, same
    transformations. *)
Theorem to_dict_from_dict_roundtrip `{!Serialisers} self ss s_last :
  TS._structures self = One <$> (ss ++ [s_last]) ->
  length (TS._transformations self) = length ss ->
  let history :=
    TS._source self :: zip_with history_entry ss (TS._transformations self) in
  let d := <["version" := PStr __version__]>
             (<["history" := PList history]> (Structure_to_dict s_last)) in
  TS.to_dict self = (Ok d, self) /\
  exists self',
    TS.from_dict (PDict d) = Ok self' /\
    self' = TS.set_redo_trans [] self /\
    (TS.final_structure self').1 = (TS.final_structure self).1 /\
    TS._transformations self' = TS._transformations self.
Proof.
  intros Hss Hlen history d.
  assert (TS.to_dict self = (Ok d, self)) as Hto.
  { unfold TS.to_dict. unfold mbind at 1. unfold M_bind at 1. unfold get at 1.
    unfold mbind at 1. unfold M_bind at 1. unfold lift at 1.
    rewrite Hss, fmap_app. simpl. rewrite index_last_app.
    unfold mbind at 1. unfold M_bind at 1. unfold lift at 1. simpl.
    unfold mbind at 1. unfold M_bind at 1.
    rewrite (imap_ext _ (fun i tr => (0 + i, tr))) by done.
    rewrite (to_dict_loop self (ss ++ [s_last]) (TS._transformations self)
               0 (ss ++ [s_last])); [|done|done|rewrite length_app; lia].
    unfold mret, M_ret. subst d history. simpl.
    rewrite zip_with_app_l, <- Hlen, take_ge, drop_ge by lia.
    by rewrite zip_with_nil_r, app_nil_r. }
  split; [exact Hto|].
  exists (TS.set_redo_trans [] self).
  assert (TS.from_dict (PDict d) = Ok (TS.set_redo_trans [] self)) as Hfrom.
  { unfold TS.from_dict. subst d. rewrite Structure_from_to_dict_extra.
    unfold mbind at 1. unfold result_bind. unfold subscript.
    rewrite lookup_insert_ne by done. rewrite lookup_insert_eq. simpl.
    unfold TS.__init__, TS.init_body. subst history.
    unfold mbind, M_bind, modify. simpl.
    fold (@mbind (M TS.t) M_bind).
    rewrite init_history_loop by done. simpl.
    unfold TS.extend_transformations, for_each. simpl. unfold mret, M_ret.
    destruct self as [src sts trs redo]. simpl in *.
    by rewrite Hss, fmap_app. }
  split; [exact Hfrom|]. split; [reflexivity|].
  split; [by rewrite !final_structure_eq|reflexivity].
Qed.
End lineage.

Lemma history_invariant_witness :
  TS.invariant Scenario.two_steps /\
  TS.invariant (TS.undo_last_transformation Scenario.two_steps).2.
Proof.
  assert (TS.invariant Scenario.two_steps) as Hinv.
  { apply (proj1 (history_invariant (H := Scenario.alchemy)) (One "A0")
             [Scenario.Append "1"; Scenario.Append "2"] None). reflexivity. }
  split; [exact Hinv|].
  apply (proj2 (history_invariant (H := Scenario.alchemy)) Scenario.two_steps Hinv).
Defined.

Lemma append_transformation_failure_transactional_witness :
  TS.append_transformation (Scenario.Reject "A012") true Scenario.two_steps
  = (Raise (ValueError "unsupported structure"), Scenario.two_steps).
Proof.
  apply (append_transformation_failure_transactional
           Scenario.two_steps (Scenario.Reject "A012") true (One "A012"));
    reflexivity.
Defined.

Lemma undo_last_transformation_n_times_witness :
  exists oldest,
    times 2 TS.undo_last_transformation Scenario.two_steps = (Ok tt, oldest) /\
    TS.undo_last_transformation oldest =
    (Raise (IndexError "Can't undo. Already at oldest change."), oldest).
Proof.
  apply (undo_last_transformation_n_times Scenario.two_steps 2).
  - unfold TS.invariant. reflexivity.
  - reflexivity.
  - simpl. lia.
Defined.

Lemma append_transformation_clears_redo_witness :
  let undone := (TS.undo_last_transformation Scenario.two_steps).2 in
  TS._redo_trans undone = [Scenario.Append "2"] /\
  exists self',
    TS.append_transformation (Scenario.Append "x") true undone = (Ok tt, self') /\
    TS._redo_trans self' = [] /\
    TS.redo_next_transformation self' =
    (Raise (IndexError "Can't undo. Already at latest change."), self').
Proof.
  intros undone. split; [reflexivity|].
  apply (proj1 (append_transformation_clears_redo undone (Scenario.Append "x"))
           (One "A01") (One "A01x")); reflexivity.
Defined.

Lemma undo_redo_roundtrip_witness :
  (TS.undo_last_transformation;; TS.redo_next_transformation) Scenario.two_steps
    = (Ok tt, Scenario.two_steps) /\
  (TS.undo_last_transformation;; TS.redo_next_transformation;;
   TS.undo_last_transformation) Scenario.two_steps
    = TS.undo_last_transformation Scenario.two_steps.
Proof.
  apply (undo_redo_roundtrip Scenario.two_steps (Scenario.Append "2")
           (One "A01") (One "A012")).
  - unfold TS.invariant. reflexivity.
  - reflexivity.
  - reflexivity.
  - reflexivity.
  - reflexivity.
Defined.

(** C7, as stated, fails on an object built from a recorded history: the
    constructor stores the structure it is handed next to the recorded
    steps, and redo recomputes the last structure from the step before. *)
Lemma undo_redo_counterexample :
  TS.__init__ (One "B") [] (Some Scenario.seeded_history) = Ok Scenario.seeded /\
  length (TS._transformations Scenario.seeded) = 1 /\
  (TS.undo_last_transformation;; TS.redo_next_transformation) Scenario.seeded
    = (Ok tt, TS.mk Scenario.source [One "A0"; One "A01"] [Scenario.Append "1"] []) /\
  TS._structures
    ((TS.undo_last_transformation;; TS.redo_next_transformation) Scenario.seeded).2
    <> TS._structures Scenario.seeded.
Proof.
  split; [reflexivity|]. split; [reflexivity|]. split; [reflexivity|].
  simpl. discriminate.
Qed.

Lemma getitem_snapshot_witness :
  TS.__getitem__ 1 Scenario.two_steps =
    (Ok (One "A01", [Scenario.Append "1"]), Scenario.two_steps) /\
  TS.__getitem__ 3 Scenario.two_steps =
    (Raise (IndexError "list index out of range"), Scenario.two_steps).
Proof.
  split.
  - destruct (proj1 (getitem_snapshot Scenario.two_steps 1)) as (s & Hs & Hget).
    + simpl. lia.
    + injection Hs as <-. exact Hget.
  - apply (proj2 (getitem_snapshot Scenario.two_steps 3)). simpl. lia.
Defined.

Lemma Scenario_strings_of outs :
  Scenario.strings_of (PStr <$> outs) = Ok outs.
Proof.
  induction outs as [|s outs IH]; [reflexivity|].
  rewrite fmap_cons. cbn [Scenario.strings_of]. by rewrite IH.
Qed.

Lemma Scenario_serialisers : Serialisers (H := Scenario.alchemy).
Proof.
  split.
  - intros s. reflexivity.
  - intros s h v. simpl. unfold Scenario.structure_from_dict, subscript.
    rewrite !lookup_insert_ne by done.
    unfold Scenario.structure_to_dict. by rewrite lookup_singleton_eq.
  - intros tr i. simpl. unfold Scenario.trans_from_dict, subscript.
    rewrite !lookup_insert_ne by done.
    destruct tr as [sfx|outs|bad]; simpl;
      rewrite lookup_insert_eq; simpl;
      rewrite lookup_insert_ne by done; rewrite lookup_singleton_eq; simpl;
      try reflexivity.
    by rewrite Scenario_strings_of.
Qed.

Lemma to_dict_from_dict_roundtrip_witness :
  exists d self',
    TS.to_dict Scenario.two_steps = (Ok d, Scenario.two_steps) /\
    TS.from_dict (PDict d) = Ok self' /\
    (TS.final_structure self').1 = Ok (One "A012") /\
    TS._transformations self' = [Scenario.Append "1"; Scenario.Append "2"].
Proof.
  destruct (to_dict_from_dict_roundtrip (H0 := Scenario_serialisers)
              Scenario.two_steps ["A0"; "A01"] "A012")
    as (Hto & self' & Hfrom & Hself & Hfinal & Htrs).
  - reflexivity.
  - reflexivity.
  - eexists _, self'. split; [exact Hto|]. split; [exact Hfrom|].
    split; [rewrite Hfinal; reflexivity|exact Htrs].
Defined.

(** ** TransformedStructureTree: what the sweep does to one member *)

Section tree_equations.
Context `{Alchemy}.
Implicit Types (self : Tree.t) (o : TS.t) (tr : Transformation) (x y : nat).

Lemma set_store_id self x o :
  Tree.store self !! x = Some o ->
  Tree.set_store (<[x := o]> (Tree.store self)) self = self.
Proof. intros Hx. destruct self. unfold Tree.set_store. simpl in *. by rewrite list_insert_id. Qed.

Lemma on_eq {A} x (m : M TS.t A) self o :
  Tree.store self !! x = Some o ->
  Tree.on x m self =
  ((m o).1, Tree.set_store (<[x := (m o).2]> (Tree.store self)) self).
Proof. intros Hx. unfold Tree.on. rewrite Hx. by destruct (m o). Qed.

Lemma for_acc_app {S A B} (l1 l2 : list A) (acc : B) (body : B -> A -> M S B) s :
  for_acc (l1 ++ l2) acc body s =
  match for_acc l1 acc body s with
  | (Ok acc', s') => for_acc l2 acc' body s'
  | (Raise e, s') => (Raise e, s')
  end.
Proof.
  revert acc s. induction l1 as [|a l1 IH]; intros acc s; [reflexivity|].
  simpl. unfold mbind, M_bind. destruct (body acc a s) as [[acc'|e] s']; [|done].
  apply IH.
Qed.

(** The inner loop over the structures a one-to-many transformation
    returned: all of them land on the one object [x]. *)
Lemma append_many_loop tr x : forall outs new self o,
  Tree.store self !! x = Some o ->
  for_acc outs new (Tree.append_branch tr x) self
  = (Ok (new ++ replicate (length outs) x),
     Tree.set_store
       (<[x := TS.mk (TS._source o) (TS._structures o ++ (One <$> outs))
                     (TS._transformations o ++ replicate (length outs) tr)
                     (TS._redo_trans o)]> (Tree.store self)) self).
Proof.
  induction outs as [|out outs IH]; intros new self o Hx.
  - simpl. unfold mret, M_ret. rewrite !app_nil_r.
    destruct o. by rewrite set_store_id.
  - pose proof (lookup_lt_Some _ _ _ Hx) as Hlt.
    cbn [for_acc]. unfold mbind at 1. unfold M_bind at 1.
    unfold Tree.append_branch at 1.
    unfold mbind at 1. unfold M_bind at 1.
    rewrite (on_eq _ _ _ o Hx). unfold modify at 1. cbn [fst snd].
    unfold mbind at 1. unfold M_bind at 1.
    erewrite on_eq by (simpl; by apply list_lookup_insert_eq).
    unfold modify at 1. cbn [fst snd]. unfold mret at 1. unfold M_ret at 1.
    erewrite IH by (simpl; apply list_lookup_insert_eq; by rewrite length_insert).
    destruct self as [st ms]. unfold Tree.set_store. simpl.
    rewrite !list_insert_insert_eq, <- !app_assoc. reflexivity.
Qed.

Lemma append_member_raise tr (clear_redo : bool) acc x self o s e :
  Tree.store self !! x = Some o ->
  last (TS._structures o) = Some s ->
  apply_transformation tr s = Raise e ->
  Tree.append_member tr clear_redo acc x self = (Raise e, self).
Proof.
  intros Hx Hs He. unfold Tree.append_member. destruct acc as [new del].
  unfold mbind at 1. unfold M_bind at 1.
  rewrite (on_eq _ _ _ o Hx), final_structure_eq, Hs. cbn [fst snd].
  rewrite (set_store_id _ _ _ Hx).
  unfold mbind at 1. unfold M_bind at 1. unfold lift. by rewrite He.
Qed.

Lemma append_member_ok tr (clear_redo : bool) new del x self o s v :
  Tree.store self !! x = Some o ->
  last (TS._structures o) = Some s ->
  apply_transformation tr s = Ok v ->
  Tree.append_member tr clear_redo (new, del) x self =
  (Ok (match v with
       | One _ => (new, del)
       | Many outs => (new ++ replicate (length outs) x, del ++ [x])
       end),
   Tree.set_store
     (<[x := Tree.advance tr clear_redo o v]> (Tree.store self)) self).
Proof.
  intros Hx Hs Hv. pose proof (lookup_lt_Some _ _ _ Hx) as Hlt.
  unfold Tree.append_member.
  unfold mbind at 1. unfold M_bind at 1.
  rewrite (on_eq _ _ _ o Hx), final_structure_eq, Hs. cbn [fst snd].
  rewrite (set_store_id _ _ _ Hx).
  unfold mbind at 1. unfold M_bind at 1. unfold lift at 1. rewrite Hv.
  unfold mbind at 1. unfold M_bind at 1.
  destruct v as [s'|outs].
  - unfold mbind at 1. unfold M_bind at 1.
    rewrite (on_eq _ _ _ o Hx). unfold modify at 1. cbn [fst snd].
    unfold mbind at 1. unfold M_bind at 1.
    erewrite on_eq by (simpl; by apply list_lookup_insert_eq).
    unfold modify at 1. cbn [fst snd]. unfold mret at 1. unfold M_ret at 1.
    destruct clear_redo.
    + unfold mbind, M_bind.
      erewrite on_eq
        by (simpl; apply list_lookup_insert_eq; by rewrite length_insert).
      unfold modify, mret, M_ret. cbn [fst snd].
      destruct self as [st ms]. unfold Tree.set_store, Tree.advance. simpl.
      by rewrite !list_insert_insert_eq.
    + unfold mbind, M_bind, mret, M_ret.
      destruct self as [st ms]. unfold Tree.set_store, Tree.advance. simpl.
      by rewrite !list_insert_insert_eq.
  - unfold mbind at 1. unfold M_bind at 1.
    rewrite (append_many_loop tr x outs new self o Hx).
    unfold mret at 1. unfold M_ret at 1.
    destruct clear_redo.
    + unfold mbind, M_bind.
      erewrite on_eq by (simpl; by apply list_lookup_insert_eq).
      unfold modify, mret, M_ret. cbn [fst snd].
      destruct self as [st ms]. unfold Tree.set_store, Tree.advance. simpl.
      by rewrite !list_insert_insert_eq, length_fmap.
    + unfold mbind, M_bind, mret, M_ret.
      destruct self as [st ms]. unfold Tree.set_store, Tree.advance. simpl.
      by rewrite length_fmap.
Qed.
End tree_equations.

(** ** TransformedStructureTree: the properties *)

Section tree.
Context `{Alchemy}.
Implicit Types (self : Tree.t) (o : TS.t) (tr : Transformation) (x y : nat).

(** The sweep over members that are distinct objects and on each of which
    the transformation returns: every one of them is advanced in place,
    nothing else in the store changes, and the tree's list is not touched. *)
Lemma sweep_returns tr (clear_redo : bool) : forall pre acc self,
  NoDup pre ->
  (forall y, y ∈ pre -> exists o s v,
      Tree.store self !! y = Some o /\ last (TS._structures o) = Some s /\
      apply_transformation tr s = Ok v) ->
  exists acc' self',
    for_acc pre acc (Tree.append_member tr clear_redo) self = (Ok acc', self') /\
    Tree._transformed_structures self' = Tree._transformed_structures self /\
    (forall y, y ∉ pre -> Tree.store self' !! y = Tree.store self !! y) /\
    (forall y o s v, y ∈ pre ->
        Tree.store self !! y = Some o -> last (TS._structures o) = Some s ->
        apply_transformation tr s = Ok v ->
        Tree.store self' !! y = Some (Tree.advance tr clear_redo o v)).
Proof.
  induction pre as [|y0 pre IH]; intros acc self Hnd Hall.
  - exists acc, self. split; [reflexivity|]. split; [reflexivity|].
    split; [done|]. intros y o s v Hy. by apply elem_of_nil in Hy.
  - apply NoDup_cons in Hnd as [Hy0 Hnd].
    destruct (Hall y0) as (o0 & s0 & v0 & Ho0 & Hs0 & Hv0); [by left|].
    destruct acc as [new del].
    pose proof (append_member_ok tr clear_redo new del y0 self o0 s0 v0 Ho0 Hs0 Hv0)
      as Hstep.
    pose proof (lookup_lt_Some _ _ _ Ho0) as Hlt.
    set (self1 := Tree.set_store
           (<[y0 := Tree.advance tr clear_redo o0 v0]> (Tree.store self)) self) in *.
    assert (forall y, y <> y0 -> Tree.store self1 !! y = Tree.store self !! y) as Hframe.
    { intros y Hy. subst self1. simpl. by apply list_lookup_insert_ne. }
    edestruct (IH (match v0 with
                   | One _ => (new, del)
                   | Many outs => (new ++ replicate (length outs) y0, del ++ [y0])
                   end) self1 Hnd)
      as (acc' & self' & Hrun & Hms & Hout & Hin).
    { intros y Hy. destruct (Hall y) as (o & s & v & Ho & Hs & Hv); [by right|].
      exists o, s, v. rewrite Hframe; [done|]. intros ->. done. }
    exists acc', self'. split; [|split; [|split]].
    + cbn [for_acc]. unfold mbind, M_bind. by rewrite Hstep.
    + by rewrite Hms.
    + intros y Hy. apply not_elem_of_cons in Hy as [Hne Hy].
      rewrite Hout by done. by apply Hframe.
    + intros y o s v Hy Ho Hs Hv. apply elem_of_cons in Hy as [->|Hy].
      * rewrite Hout by done. subst self1. simpl.
        rewrite Ho0 in Ho. injection Ho as <-.
        rewrite Hs0 in Hs. injection Hs as <-.
        rewrite Hv0 in Hv. injection Hv as <-.
        by apply list_lookup_insert_eq.
      * eapply Hin; [done| |done|done].
        rewrite Hframe; [done|]. intros ->. done.
Qed.

(** C2 (as the code has it). When the transformation raises on a member,
    [append_transformation] raises that exception and the tree's list of
    members is as before, as are the raising member and every member after
    it.  The members swept before it keep what the sweep did to them: one
    for which the transformation returned a single structure has that
    structure and the transformation appended, and its redo list emptied
    when [clear_redo] is set.  Members are distinct objects here. *)
Theorem append_transformation_partial_failure
    self tr (clear_redo : bool) pre x post e :
  Tree._transformed_structures self = pre ++ x :: post ->
  NoDup (pre ++ x :: post) ->
  (forall y, y ∈ pre -> exists o s v,
      Tree.store self !! y = Some o /\ last (TS._structures o) = Some s /\
      apply_transformation tr s = Ok v) ->
  (exists o s,
      Tree.store self !! x = Some o /\ last (TS._structures o) = Some s /\
      apply_transformation tr s = Raise e) ->
  exists self',
    Tree.append_transformation tr clear_redo self = (Raise e, self') /\
    Tree._transformed_structures self' = Tree._transformed_structures self /\
    (forall y, y ∉ pre -> Tree.store self' !! y = Tree.store self !! y) /\
    (forall y o s s', y ∈ pre ->
        Tree.store self !! y = Some o -> last (TS._structures o) = Some s ->
        apply_transformation tr s = Ok (One s') ->
        Tree.store self' !! y =
        Some (TS.mk (TS._source o) (TS._structures o ++ [One s'])
                    (TS._transformations o ++ [tr])
                    (if clear_redo then [] else TS._redo_trans o))).
Proof.
  intros Hms Hnd Hpre (ox & sx & Hox & Hsx & Hex).
  apply NoDup_app in Hnd as (Hnd_pre & Hdisj & Hnd_post).
  assert (x ∉ pre) as Hx. { intros Hin. apply (Hdisj x Hin). by left. }
  destruct (sweep_returns tr clear_redo pre ([], []) self Hnd_pre Hpre)
    as (acc' & self' & Hrun & Hms' & Hout & Hin).
  exists self'. split; [|split; [done|split; [done|]]].
  - unfold Tree.append_transformation.
    unfold mbind at 1. unfold M_bind at 1. unfold get at 1.
    unfold mbind at 1. unfold M_bind at 1.
    rewrite Hms, for_acc_app, Hrun. cbn [for_acc].
    unfold mbind at 1. unfold M_bind at 1.
    erewrite append_member_raise; [reflexivity| |exact Hsx|exact Hex].
    by rewrite Hout.
  - intros y o s s' Hy Ho Hs Hv.
    by rewrite (Hin y o s (One s') Hy Ho Hs Hv).
Qed.

(** A tree with one member on which the transformation returns a list: the
    member is taken out of the tree's list and put back once per returned
    structure, and every returned structure has been appended to it. *)
Lemma append_transformation_split_single self tr (clear_redo : bool) x o s outs :
  Tree._transformed_structures self = [x] ->
  Tree.store self !! x = Some o ->
  last (TS._structures o) = Some s ->
  apply_transformation tr s = Ok (Many outs) ->
  Tree.append_transformation tr clear_redo self =
  (Ok tt, Tree.mk (<[x := Tree.advance tr clear_redo o (Many outs)]> (Tree.store self))
                  (replicate (length outs) x)).
Proof.
  intros Hms Hx Hs Hv. unfold Tree.append_transformation.
  unfold mbind at 1. unfold M_bind at 1. unfold get at 1.
  unfold mbind at 1. unfold M_bind at 1.
  rewrite Hms. cbn [for_acc]. unfold mbind at 1. unfold M_bind at 1.
  rewrite (append_member_ok tr clear_redo [] [] x self o s (Many outs) Hx Hs Hv).
  unfold mret at 1. unfold M_ret at 1.
  unfold for_each. cbn [for_acc app]. unfold_monad. simpl. rewrite Hms. simpl.
  destruct (decide (x = x)) as [_|Hne]; [|done].
  reflexivity.
Qed.

(** C10. Indexing a tree that has members raises [TypeError]: each member's
    [__getitem__] is called with the tree and the index, one argument too
    many, and the first call already fails.  No snapshot is returned and
    nothing is modified.  An empty tree gives the empty list. *)
Theorem tree_getitem_raises self (index : Z) :
  (Tree._transformed_structures self = [] ->
     Tree.__getitem__ index self = (Ok [], self)) /\
  (Tree._transformed_structures self <> [] -> Tree.wf self ->
     Tree.__getitem__ index self =
     (Raise (TypeError "__getitem__() takes exactly 2 arguments (3 given)"), self)).
Proof.
  unfold Tree.__getitem__, Tree.wf. split.
  - intros Hnil. unfold mbind, M_bind, get. by rewrite Hnil.
  - intros Hne Hwf. unfold mbind at 1. unfold M_bind at 1. unfold get.
    destruct (Tree._transformed_structures self) as [|x xs]; [done|].
    apply Forall_cons in Hwf as [[o Ho] _].
    cbn [comprehension]. unfold mbind at 1. unfold M_bind at 1.
    rewrite (on_eq _ _ _ o Ho). simpl. by rewrite (set_store_id _ _ _ Ho).
Qed.
End tree.

(** C1, on the code.  A forest built from ["A0"] and handed a one-to-many
    transformation in the constructor keeps its single member, whose history
    now holds the returned list as if it were one structure.  Appended to the
    forest afterwards, the same transformation gives three members, but all
    three are the one object the split member was: its history holds the
    three branches one after the other and the transformation three times. *)
Theorem split_members_share_one_history :
  let split := Scenario.Split ["B1"; "B2"; "B3"] in
  (exists tree,
      Tree.__init__ [] [One "A0"] [split] None = Ok tree /\
      Tree._transformed_structures tree = [0] /\
      Tree.store tree !! 0 =
      Some (TS.mk (PDict ∅) [One "A0"; Many ["B1"; "B2"; "B3"]] [split] [])) /\
  (exists tree0 tree1,
      Tree.__init__ [] [One "A0"] [] None = Ok tree0 /\
      Tree.append_transformation split true tree0 = (Ok tt, tree1) /\
      Tree._transformed_structures tree1 = [0; 0; 0] /\
      Tree.store tree1 !! 0 =
      Some (TS.mk (PDict ∅) [One "A0"; One "B1"; One "B2"; One "B3"]
                  [split; split; split] [])).
Proof.
  intros split. split.
  - eexists. split; [reflexivity|]. split; reflexivity.
  - eexists _, _. split; [reflexivity|]. split; [reflexivity|]. split; reflexivity.
Qed.

Lemma append_transformation_partial_failure_witness :
  exists tree0 tree1,
    Tree.__init__ [] [One "A0"; One "A1"] [] None = Ok tree0 /\
    Tree.append_transformation (Scenario.Reject "A1") true tree0
      = (Raise (ValueError "unsupported structure"), tree1) /\
    Tree._transformed_structures tree1 = Tree._transformed_structures tree0 /\
    Tree.store tree1 !! 1 = Tree.store tree0 !! 1.
Proof.
  set (tree0 := Scenario.two_members).
  destruct (append_transformation_partial_failure tree0 (Scenario.Reject "A1") true
              [0] 1 [] (ValueError "unsupported structure"))
    as (tree1 & Hrun & Hms & Hout & Hin).
  - reflexivity.
  - apply (bool_decide_unpack (NoDup ([0] ++ [1]))). reflexivity.
  - intros y Hy. apply list_elem_of_singleton in Hy as ->.
    eexists _, _, _. split; [reflexivity|]. split; reflexivity.
  - eexists _, _. split; [reflexivity|]. split; reflexivity.
  - exists tree0, tree1. split; [reflexivity|]. split; [exact Hrun|].
    split; [exact Hms|]. apply Hout. intros Hy.
    apply list_elem_of_singleton in Hy. discriminate.
Defined.

(** C2, as stated, fails: the first member has been advanced when the
    transformation raises on the second. *)
Lemma append_transformation_sweep_counterexample :
  exists tree0 tree1,
    Tree.__init__ [] [One "A0"; One "A1"] [] None = Ok tree0 /\
    Tree.append_transformation (Scenario.Reject "A1") true tree0
      = (Raise (ValueError "unsupported structure"), tree1) /\
    TS._transformations <$> Tree.store tree0 !! 0 = Some [] /\
    TS._transformations <$> Tree.store tree1 !! 0 = Some [Scenario.Reject "A1"] /\
    tree1 <> tree0.
Proof.
  eexists _, _. split; [reflexivity|]. split; [reflexivity|].
  split; [reflexivity|]. split; [reflexivity|]. discriminate.
Qed.

Lemma tree_getitem_raises_witness :
  Tree.__getitem__ 0 Scenario.no_members = (Ok [], Scenario.no_members) /\
  exists tree0,
    Tree.__init__ [] [One "A0"; One "A1"] [] None = Ok tree0 /\
    Tree.__getitem__ 0 tree0 =
    (Raise (TypeError "__getitem__() takes exactly 2 arguments (3 given)"), tree0).
Proof.
  split.
  - apply (proj1 (tree_getitem_raises Scenario.no_members 0)).
    reflexivity.
  - eexists. split; [reflexivity|].
    apply (proj2 (tree_getitem_raises _ 0)).
    + discriminate.
    + unfold Tree.wf. simpl. repeat constructor; by eexists.
Defined.

(** * Further properties of the module *)

(** ** TransformedStructure *)

Lemma times_succ_l {S} (m : M S unit) k s :
  times (Datatypes.S k) m s =
  match m s with
  | (Ok _, s') => times k m s'
  | (Raise e, s') => (Raise e, s')
  end.
Proof.
  revert s. induction k as [|k IH]; intros s.
  - simpl. unfold mbind, M_bind, mret, M_ret. by destruct (m s) as [[[]|e] s'].
  - change (times (Datatypes.S (Datatypes.S k)) m s)
      with ((times (Datatypes.S k) m;; m) s).
    unfold mbind at 1. unfold M_bind at 1. rewrite IH.
    destruct (m s) as [[[]|e] s']; [|done]. reflexivity.
Qed.

Section lineage_more.
Context `{Alchemy}.
Implicit Types (self : TS.t) (tr : Transformation) (s : value Structure).

(** X1. A negative index [-k] picks the [k]-th structure from the end and
    pairs it with [transformations[0:-k]], the list without its last [k]
    entries; an index below [-len(structures)] raises [IndexError]. *)
Theorem getitem_negative_index self :
  (forall k : nat,
      1 <= k <= length (TS._structures self) ->
      exists s,
        TS._structures self !! (length (TS._structures self) - k) = Some s /\
        TS.__getitem__ (- Z.of_nat k) self =
        (Ok (s, take (length (TS._transformations self) - k)
                     (TS._transformations self)), self)) /\
  (forall i : Z,
      (i < - Z.of_nat (length (TS._structures self)))%Z ->
      TS.__getitem__ i self =
      (Raise (IndexError "list index out of range"), self)).
Proof.
  split.
  - intros k Hk.
    destruct (lookup_lt_is_Some_2 (TS._structures self)
                (length (TS._structures self) - k)) as [s Hs]; [lia|].
    exists s. split; [exact Hs|].
    unfold TS.__getitem__. unfold_monad.
    unfold PyList.index, PyList.slice_to.
    destruct (- Z.of_nat k <? 0)%Z eqn:Hneg; [|apply Z.ltb_ge in Hneg; lia].
    replace (Z.to_nat (Z.of_nat (length (TS._structures self)) + - Z.of_nat k))
      with (length (TS._structures self) - k) by lia.
    replace (Z.to_nat (Z.of_nat (length (TS._transformations self)) + - Z.of_nat k))
      with (length (TS._transformations self) - k) by lia.
    rewrite Hs.
    destruct (0 <=? _)%Z eqn:H0; [|apply Z.leb_gt in H0; lia].
    destruct (_ <? Z.of_nat (length (TS._structures self)))%Z eqn:H1;
      [|apply Z.ltb_ge in H1; lia].
    reflexivity.
  - intros i Hi. unfold TS.__getitem__. unfold_monad. unfold PyList.index.
    destruct (i <? 0)%Z eqn:Hneg; [|apply Z.ltb_ge in Hneg; lia].
    destruct (0 <=? _)%Z eqn:H0; [apply Z.leb_le in H0; lia|].
    reflexivity.
Qed.

(** X2. A redo whose transformation raises is not undone: the exception
    comes out, structures and transformations are as before, but the entry
    has left the redo list. *)
Theorem redo_next_transformation_failure self redo tr s e :
  TS._redo_trans self = redo ++ [tr] ->
  (TS.final_structure self).1 = Ok s ->
  apply_transformation tr s = Raise e ->
  TS.redo_next_transformation self = (Raise e, TS.set_redo_trans redo self).
Proof.
  intros Hredo Hs He. rewrite final_structure_eq in Hs.
  destruct self as [src ss trs redo0]. simpl in Hredo, Hs. subst redo0.
  rewrite redo_next_transformation_step, append_transformation_eq. simpl.
  destruct (last ss) as [s'|]; [|discriminate].
  injection Hs as ->. by rewrite He.
Qed.

(** X3. [extend_transformations] stops at the first transformation that
    raises: the exception comes out and the transformations before it stay
    applied. *)
Theorem extend_transformations_stops self ts1 tr ts2 self1 s e :
  TS.extend_transformations ts1 self = (Ok tt, self1) ->
  (TS.final_structure self1).1 = Ok s ->
  apply_transformation tr s = Raise e ->
  TS.extend_transformations (ts1 ++ tr :: ts2) self = (Raise e, self1).
Proof.
  unfold TS.extend_transformations. revert self.
  induction ts1 as [|t ts1 IH]; intros self Hrun Hs He.
  - injection Hrun as <-. simpl app. rewrite for_each_cons.
    rewrite final_structure_eq in Hs. simpl in Hs.
    rewrite append_transformation_eq.
    destruct (last (TS._structures self)) as [s'|]; [|discriminate].
    injection Hs as ->. by rewrite He.
  - simpl app. rewrite for_each_cons in Hrun |- *.
    destruct (TS.append_transformation t true self) as [[[]|e'] self0];
      [|discriminate].
    by apply IH.
Qed.

Lemma extend_transformations_shape self ts self' :
  TS.extend_transformations ts self = (Ok tt, self') ->
  TS._source self' = TS._source self /\
  TS._transformations self' = TS._transformations self ++ ts /\
  (exists news,
      TS._structures self' = TS._structures self ++ news /\
      length news = length ts) /\
  TS._redo_trans self' = (if ts is [] then TS._redo_trans self else []).
Proof.
  unfold TS.extend_transformations. revert self.
  induction ts as [|t ts IH]; intros self Hrun.
  - injection Hrun as <-. rewrite app_nil_r. repeat split.
    exists []. by rewrite app_nil_r.
  - rewrite for_each_cons, append_transformation_eq in Hrun.
    destruct (last (TS._structures self)) as [s|]; [|discriminate].
    destruct (apply_transformation t s) as [new_s|e]; [|discriminate].
    apply IH in Hrun as (Hsrc & Htrs & (news & Hss & Hlen) & Hredo).
    simpl in *. split; [done|]. split; [by rewrite Htrs, <- app_assoc|].
    split.
    + exists (new_s :: news). rewrite Hss, <- app_assoc. simpl. by rewrite Hlen.
    + rewrite Hredo. by destruct ts.
Qed.

(** X4. When [extend_transformations] returns, the transformations have
    been appended in order, one structure has been added for each, the
    structures that were there are still there, and the redo list is empty
    unless no transformation was given. *)
Theorem extend_transformations_returns self ts self' :
  TS.extend_transformations ts self = (Ok tt, self') ->
  TS._source self' = TS._source self /\
  TS._transformations self' = TS._transformations self ++ ts /\
  (exists news,
      TS._structures self' = TS._structures self ++ news /\
      length news = length ts) /\
  TS._redo_trans self' = (if ts is [] then TS._redo_trans self else []).
Proof. apply extend_transformations_shape. Qed.
End lineage_more.

Section lineage_consistency.
Context `{Alchemy}.
Implicit Types (self : TS.t) (tr : Transformation) (s : value Structure).

Lemma append_transformation_consistent self tr (clear_redo : bool) :
  TS.invariant self -> TS.consistent self ->
  TS.consistent (TS.append_transformation tr clear_redo self).2.
Proof.
  intros Hinv Hcon. rewrite append_transformation_eq.
  destruct (last (TS._structures self)) as [s|] eqn:Hlast; [|exact Hcon].
  destruct (apply_transformation tr s) as [new_s|e] eqn:Happ; [|exact Hcon].
  unfold TS.consistent, TS.invariant in *. simpl.
  intros i s1 s2 tr1 Hs1 Hs2 Htr1.
  destruct (decide (S i < length (TS._structures self))) as [Hlt|Hge].
  - rewrite lookup_app_l in Hs1 by lia. rewrite lookup_app_l in Hs2 by lia.
    rewrite lookup_app_l in Htr1 by lia. by eapply Hcon.
  - pose proof (lookup_lt_Some _ _ _ Hs2) as Hi. rewrite length_app in Hi.
    simpl in Hi. assert (S i = length (TS._structures self)) as Hi' by lia.
    rewrite lookup_app_l in Hs1 by lia.
    rewrite lookup_app_r in Hs2 by lia. rewrite lookup_app_r in Htr1 by lia.
    replace (S i - length (TS._structures self)) with 0 in Hs2 by lia.
    replace (i - length (TS._transformations self)) with 0 in Htr1 by lia.
    injection Hs2 as <-. injection Htr1 as <-.
    rewrite last_lookup in Hlast.
    replace (pred (length (TS._structures self))) with i in Hlast by lia.
    rewrite Hs1 in Hlast. by injection Hlast as ->.
Qed.

Lemma undo_last_transformation_consistent self :
  TS.invariant self -> TS.consistent self ->
  TS.consistent (TS.undo_last_transformation self).2.
Proof.
  destruct self as [src ss trs redo]. unfold TS.invariant. simpl. intros Hinv Hcon.
  destruct trs as [|tr trs _] using rev_ind.
  { by rewrite undo_last_transformation_oldest. }
  destruct ss as [|s ss _] using rev_ind; [simpl in Hinv; lia|].
  rewrite undo_last_transformation_step. unfold TS.consistent in *. simpl in *.
  intros i s1 s2 tr1 Hs1 Hs2 Htr1. apply (Hcon i s1 s2 tr1).
  - by apply lookup_app_l_Some.
  - by apply lookup_app_l_Some.
  - by apply lookup_app_l_Some.
Qed.

Lemma redo_next_transformation_consistent self :
  TS.invariant self -> TS.consistent self ->
  TS.consistent (TS.redo_next_transformation self).2.
Proof.
  destruct self as [src ss trs redo]. intros Hinv Hcon.
  destruct redo as [|tr redo _] using rev_ind.
  { by rewrite redo_next_transformation_latest. }
  rewrite redo_next_transformation_step.
  by apply append_transformation_consistent.
Qed.

Lemma extend_transformations_consistent self ts :
  TS.invariant self -> TS.consistent self ->
  TS.consistent (TS.extend_transformations ts self).2.
Proof.
  intros Hinv Hcon.
  apply (for_each_preserves (fun o => TS.invariant o /\ TS.consistent o)
           (fun tr => TS.append_transformation tr true) ts); [|done].
  intros tr o [Hi Hc]. split.
  - by apply append_transformation_invariant.
  - by apply append_transformation_consistent.
Qed.

(** X5. An object built without a recorded history has a consistent
    history (every structure after the first is what the transformation
    before it returns on the structure before it), and [append_transformation],
    [extend_transformations], [undo_last_transformation] and
    [redo_next_transformation] keep a history consistent, whether they
    return or raise. *)
Theorem history_consistent :
  (forall structure ts self,
      TS.__init__ structure ts None = Ok self ->
      TS.invariant self /\ TS.consistent self) /\
  (forall self, TS.invariant self -> TS.consistent self ->
      (forall tr (clear_redo : bool),
          TS.consistent (TS.append_transformation tr clear_redo self).2) /\
      (forall ts, TS.consistent (TS.extend_transformations ts self).2) /\
      TS.consistent (TS.undo_last_transformation self).2 /\
      TS.consistent (TS.redo_next_transformation self).2).
Proof.
  split.
  - intros structure ts self. unfold TS.__init__, TS.init_body.
    set (o := TS.mk (PDict ∅) [structure] [] []).
    assert (TS.invariant o /\ TS.consistent o) as Ho.
    { split; [reflexivity|]. intros i s s' tr _ _ Htr. by destruct i. }
    pose proof (for_each_preserves (fun o => TS.invariant o /\ TS.consistent o)
      (fun tr => TS.append_transformation tr true) ts) as Hloop.
    specialize (Hloop (fun tr o' '(conj Hi Hc) =>
      conj (append_transformation_invariant o' tr true Hi)
           (append_transformation_consistent o' tr true Hi Hc)) o Ho).
    unfold_monad. simpl.
    change (TS.structures_append structure _) with o.
    destruct (for_each ts _ o) as [[[]|e] self']; [|discriminate].
    by intros [= <-].
  - intros self Hinv Hcon. repeat split.
    + intros. by apply append_transformation_consistent.
    + intros. by apply extend_transformations_consistent.
    + by apply undo_last_transformation_consistent.
    + by apply redo_next_transformation_consistent.
Qed.

Lemma undo_then_redo self :
  TS.invariant self -> TS.consistent self ->
  TS._transformations self <> [] ->
  exists u,
    TS.undo_last_transformation self = (Ok tt, u) /\
    TS.redo_next_transformation u = (Ok tt, self).
Proof.
  destruct self as [src ss trs redo]. unfold TS.invariant. simpl.
  intros Hinv Hcon Hne.
  destruct trs as [|tr trs _] using rev_ind; [done|].
  destruct ss as [|s_last ss _] using rev_ind; [simpl in Hinv; lia|].
  rewrite !length_app in Hinv. simpl in Hinv.
  destruct ss as [|s_prev ss _] using rev_ind; [simpl in Hinv; lia|].
  rewrite length_app in Hinv. simpl in Hinv.
  eexists. split; [apply undo_last_transformation_step|].
  rewrite redo_next_transformation_step, append_transformation_eq. simpl.
  rewrite last_snoc.
  rewrite (Hcon (length ss) s_prev s_last tr); [reflexivity| | |]; simpl.
  - rewrite <- app_assoc. by apply list_lookup_middle.
  - rewrite lookup_app_r by (rewrite length_app; simpl; lia).
    rewrite length_app. simpl.
    by replace (S (length ss) - (length ss + 1)) with 0 by lia.
  - rewrite lookup_app_r by lia.
    by replace (length ss - length trs) with 0 by lia.
Qed.

Lemma times_undo_consistent self k :
  TS.invariant self -> TS.consistent self ->
  k <= length (TS._transformations self) ->
  exists u,
    times k TS.undo_last_transformation self = (Ok tt, u) /\
    TS.invariant u /\ TS.consistent u /\
    length (TS._transformations u) = length (TS._transformations self) - k.
Proof.
  intros Hinv Hcon. induction k as [|k IH]; intros Hk.
  - exists self. repeat split; [done|done|lia].
  - destruct IH as (u_k & Hrun & Hinv_k & Hcon_k & Hlen); [lia|].
    destruct (undo_then_redo u_k Hinv_k Hcon_k) as (u & Hu & _).
    { intros Hnil. rewrite Hnil in Hlen. simpl in Hlen. lia. }
    exists u. split; [simpl; unfold mbind, M_bind; by rewrite Hrun|].
    pose proof (undo_last_transformation_invariant u_k Hinv_k) as Hinv'.
    pose proof (undo_last_transformation_consistent u_k Hinv_k Hcon_k) as Hcon'.
    rewrite Hu in Hinv', Hcon'. split; [done|]. split; [done|].
    unfold TS.invariant in *. simpl in *.
    destruct (last (TS._transformations u_k)) as [tr|] eqn:Hlast.
    2: { apply last_None in Hlast. rewrite Hlast in Hlen. simpl in Hlen. lia. }
    destruct (undo_last_transformation_pops u_k tr Hinv_k Hlast) as (s & _ & Hpop).
    rewrite Hu in Hpop. injection Hpop as ->. simpl.
    destruct (TS._transformations u_k) as [|tr' trs _] using rev_ind; [discriminate|].
    rewrite removelast_last. rewrite length_app in Hlen. simpl in Hlen. lia.
Qed.

(** X6. On an object with a consistent history of [n] transformations,
    [k <= n] undos followed by [k] redos all return and give the object back
    as it was: structures, transformations and redo list. *)
Theorem undo_redo_k_times self k :
  TS.invariant self -> TS.consistent self ->
  k <= length (TS._transformations self) ->
  exists u,
    times k TS.undo_last_transformation self = (Ok tt, u) /\
    times k TS.redo_next_transformation u = (Ok tt, self).
Proof.
  intros Hinv Hcon. induction k as [|k IH]; intros Hk.
  - exists self. split; reflexivity.
  - destruct IH as (u_k & Hundo & Hredo); [lia|].
    destruct (times_undo_consistent self k Hinv Hcon)
      as (u_k' & Hundo' & Hinv_k & Hcon_k & Hlen); [lia|].
    rewrite Hundo in Hundo'. injection Hundo' as <-.
    destruct (undo_then_redo u_k Hinv_k Hcon_k) as (u & Hu & Hback).
    { intros Hnil. rewrite Hnil in Hlen. simpl in Hlen. lia. }
    exists u. split.
    + simpl. unfold mbind, M_bind. by rewrite Hundo.
    + by rewrite times_succ_l, Hback.
Qed.
End lineage_consistency.

Section lineage_construction.
Context `{Alchemy}.
Implicit Types (self : TS.t) (tr : Transformation) (s : value Structure).

Lemma init_history_loop_returns steps : forall o o',
  for_each steps TS.init_history_step o = (Ok tt, o') ->
  exists rs,
    Forall2 rehydrates steps rs /\
    o' = TS.mk (TS._source o) (TS._structures o ++ (One <$> rs.*1))
               (TS._transformations o ++ rs.*2) (TS._redo_trans o).
Proof.
  induction steps as [|h steps IH]; intros o o' Hrun.
  - injection Hrun as <-. exists []. split; [constructor|].
    destruct o. simpl. by rewrite !app_nil_r.
  - rewrite for_each_cons in Hrun.
    destruct (TS.init_history_step h o) as [[[]|e] o1] eqn:Hstep; [|discriminate].
    unfold TS.init_history_step in Hstep.
    apply bind_Ok_inv in Hstep as (i & ? & Hi & Hstep).
    unfold lift in Hi. injection Hi as Hi <-.
    apply bind_Ok_inv in Hstep as (st & ? & Hst & Hstep).
    unfold lift in Hst. injection Hst as Hst <-.
    apply bind_Ok_inv in Hstep as ([] & ? & [= <-] & Hstep).
    apply bind_Ok_inv in Hstep as (tr & ? & Htr & Hstep).
    unfold lift in Htr. injection Htr as Htr <-.
    injection Hstep as <-.
    apply IH in Hrun as (rs & Hrs & ->).
    exists ((st, tr) :: rs). split.
    + constructor; [|done]. by exists i.
    + simpl. by rewrite <- !app_assoc.
Qed.

(** X7. When the constructor returns on a recorded history, the first
    entry of the history is the source, every later entry had an
    [input_structure] and was read back into a structure and a
    transformation, and the object holds those structures, then the
    structure handed in, then one structure per transformation handed in;
    its redo list is empty. *)
Theorem init_with_history_returns structure ts h0 steps self :
  TS.__init__ structure ts (Some (h0 :: steps)) = Ok self ->
  exists rs news,
    Forall2 rehydrates steps rs /\
    TS._source self = h0 /\
    TS._structures self = (One <$> rs.*1) ++ structure :: news /\
    length news = length ts /\
    TS._transformations self = rs.*2 ++ ts /\
    TS._redo_trans self = [].
Proof.
  unfold TS.__init__.
  destruct (TS.init_body structure ts (Some (h0 :: steps)) TS.blank)
    as [[[]|e] o] eqn:Hrun; [|discriminate].
  intros [= <-]. unfold TS.init_body in Hrun.
  repeat (apply bind_Ok_inv in Hrun as (? & ? & [= <- <-] & Hrun)).
  apply bind_Ok_inv in Hrun as ([] & o1 & Hhist & Hrun).
  apply bind_Ok_inv in Hhist as ([] & ? & [= <-] & Hhist).
  apply bind_Ok_inv in Hrun as ([] & ? & [= <-] & Hrun).
  apply init_history_loop_returns in Hhist as (rs & Hrs & ->).
  apply extend_transformations_shape in Hrun
    as (Hsrc & Htrs & (news & Hss & Hlen) & Hredo).
  simpl in *. exists rs, news. split; [done|]. split; [done|].
  split; [by rewrite Hss, <- app_assoc|]. split; [done|]. split; [done|].
  rewrite Hredo. by destruct ts.
Qed.


Lemma append_transformation_set_source v tr (clear_redo : bool) self :
  TS.append_transformation tr clear_redo (TS.set_source v self) =
  ((TS.append_transformation tr clear_redo self).1,
   TS.set_source v (TS.append_transformation tr clear_redo self).2).
Proof.
  rewrite !append_transformation_eq. simpl.
  destruct (last (TS._structures self)) as [s|]; [|done].
  by destruct (apply_transformation tr s).
Qed.

Lemma extend_transformations_set_source v ts : forall self,
  TS.extend_transformations ts (TS.set_source v self) =
  ((TS.extend_transformations ts self).1,
   TS.set_source v (TS.extend_transformations ts self).2).
Proof.
  unfold TS.extend_transformations.
  induction ts as [|t ts IH]; intros self; [done|].
  rewrite !for_each_cons, append_transformation_set_source.
  destruct (TS.append_transformation t true self) as [[[]|e] o]; simpl; [|done].
  apply IH.
Qed.

Lemma init_with_source_only structure ts src :
  TS.__init__ structure ts (Some [src]) =
  match TS.__init__ structure ts None with
  | Ok self => Ok (TS.set_source src self)
  | Raise e => Raise e
  end.
Proof.
  unfold TS.__init__, TS.init_body. unfold_monad. simpl.
  pose proof (extend_transformations_set_source src ts
                (TS.mk (PDict ∅) [structure] [] [])) as Hext.
  unfold TS.extend_transformations, TS.set_source in Hext. simpl in Hext.
  unfold TS.structures_append, TS.set_structures. simpl.
  rewrite Hext. clear Hext.
  destruct (for_each ts _ _) as [[[]|e] o]; simpl.
  all: reflexivity.
Qed.

(** X9. A recorded history that holds a source and no steps changes
    nothing but the source: the constructor returns or raises as it does
    without a history, and the object it returns is the same one with
    [_source] replaced. *)
Theorem init_with_source_only_is_plain structure ts src :
  TS.__init__ structure ts (Some [src]) =
  match TS.__init__ structure ts None with
  | Ok self => Ok (TS.set_source src self)
  | Raise e => Raise e
  end.
Proof. apply init_with_source_only. Qed.
End lineage_construction.

(** ** PoscarTransformedStructure *)

Lemma sub_quotes_length text :
  String.length (PoscarTransformedStructure.sub_quotes text) = String.length text.
Proof. induction text as [|c text IH]; simpl; [done|]. by rewrite IH. Qed.

Lemma sub_quotes_no_quote text n :
  String.get n (PoscarTransformedStructure.sub_quotes text) <> Some "'"%char.
Proof.
  revert n. induction text as [|c text IH]; intros n; simpl; [done|].
  destruct n as [|n]; [|apply IH].
  destruct (Ascii.eqb c "'") eqn:Hc; [done|].
  intros [= ->]. by rewrite Ascii.eqb_refl in Hc.
Qed.

Section poscar.
Context `{Alchemy}.
Variable Poscar_from_string : string -> result PoscarTransformedStructure.Poscar.

(** X10. A POSCAR without element symbols is refused with [ValueError]
    before anything is built.  Otherwise the constructor returns or raises
    as [TransformedStructure(struct, transformations)] does, and the object
    is that one with the provenance record as its source; the text kept
    under [original_file] has the length of the input and no single quote. *)
Theorem poscar_constructor utcnow text ts p :
  Poscar_from_string text = Ok p ->
  (PoscarTransformedStructure.true_names p = false ->
     PoscarTransformedStructure.__init__ Poscar_from_string utcnow text ts =
     Raise (ValueError
       "Transformation can be craeted only from POSCAR strings with proper VASP5 element symbols.")) /\
  (PoscarTransformedStructure.true_names p = true ->
     let raw := PoscarTransformedStructure.sub_quotes text in
     String.length raw = String.length text /\
     (forall n, String.get n raw <> Some "'"%char) /\
     PoscarTransformedStructure.__init__ Poscar_from_string utcnow text ts =
     match TS.__init__ (One (PoscarTransformedStructure.struct p)) ts None with
     | Ok self =>
         Ok (TS.set_source
               (PDict (PoscarTransformedStructure.source_info utcnow raw)) self)
     | Raise e => Raise e
     end).
Proof.
  intros Hp. unfold PoscarTransformedStructure.__init__.
  unfold mbind, result_bind. rewrite Hp. split; intros Hnames; rewrite Hnames; simpl.
  - reflexivity.
  - split; [apply sub_quotes_length|]. split; [apply sub_quotes_no_quote|].
    apply init_with_source_only.
Qed.
End poscar.

Lemma poscar_constructor_witness :
  PoscarTransformedStructure.__init__ Scenario.poscar_from_string
    "2012-03-02" "?'" [] =
  Raise (ValueError
    "Transformation can be craeted only from POSCAR strings with proper VASP5 element symbols.") /\
  exists self,
    PoscarTransformedStructure.__init__ Scenario.poscar_from_string
      "2012-03-02" "Fe'O" [Scenario.Append "1"] = Ok self /\
    TS._structures self = [One "Fe'O"; One "Fe'O1"].
Proof.
  split.
  - eapply (proj1 (poscar_constructor Scenario.poscar_from_string
                     "2012-03-02" "?'" [] _ eq_refl)). reflexivity.
  - destruct (proj2 (poscar_constructor Scenario.poscar_from_string
                       "2012-03-02" "Fe'O" [Scenario.Append "1"] _ eq_refl))
      as (_ & _ & Hrun); [reflexivity|].
    eexists. split; [exact Hrun|]. reflexivity.
Defined.

(** ** TransformedStructureTree *)

Section tree_construction.
Context `{Alchemy}.
Implicit Types (self : Tree.t) (o : TS.t) (tr : Transformation) (x y : nat).

(** A loop that allocates one object per round and appends its reference. *)
Lemma alloc_loop (body : nat -> M Tree.t unit) (built : nat -> TS.t -> Prop) :
  (forall i self self',
      body i self = (Ok tt, self') ->
      exists o, built i o /\
        self' = Tree.mk (Tree.store self ++ [o])
                  (Tree._transformed_structures self ++ [length (Tree.store self)])) ->
  forall m a self self',
    for_each (seq a m) body self = (Ok tt, self') ->
    exists objs,
      length objs = m /\
      self' = Tree.mk (Tree.store self ++ objs)
                (Tree._transformed_structures self ++ seq (length (Tree.store self)) m) /\
      (forall j o, objs !! j = Some o -> built (a + j) o).
Proof.
  intros Hbody. induction m as [|m IH]; intros a self self' Hrun.
  - injection Hrun as <-. exists []. split; [done|]. split.
    + destruct self. simpl. by rewrite !app_nil_r.
    + intros j o Hj. by rewrite lookup_nil in Hj.
  - simpl seq in Hrun. rewrite for_each_cons in Hrun.
    destruct (body a self) as [[[]|e] self1] eqn:Hstep; [|discriminate].
    apply Hbody in Hstep as (o0 & Hbuilt & ->).
    apply IH in Hrun as (objs & Hlen & -> & Hobjs). simpl.
    exists (o0 :: objs). split; [simpl; by rewrite Hlen|]. split.
    + rewrite length_app. simpl. rewrite <- !app_assoc. simpl.
      by rewrite Nat.add_1_r.
    + intros [|j] o Hj; simpl in Hj.
      * injection Hj as <-. by rewrite Nat.add_0_r.
      * rewrite <- Nat.add_succ_comm. by apply Hobjs.
Qed.

(** X11. When the tree's constructor returns, it has allocated one new
    object per input structure, in order, each the result of the
    [TransformedStructure] constructor on that structure (with the history
    at the same position when histories are given); the tree lists exactly
    these objects, all distinct and all in the store.  A non-empty list of
    histories of another length than the structures raises [ValueError]. *)
Theorem tree_init_returns h structures_list ts histories :
  (forall tree,
      Tree.__init__ h structures_list ts histories = Ok tree ->
      exists objs,
        Tree.store tree = h ++ objs /\
        length objs = length structures_list /\
        Tree._transformed_structures tree = seq (length h) (length structures_list) /\
        (forall j o, objs !! j = Some o ->
           exists s, structures_list !! j = Some s /\
             TS.__init__ s ts
               (match histories with
                | Some ((_ :: _) as hs) => hs !! j
                | _ => None
                end) = Ok o) /\
        NoDup (Tree._transformed_structures tree) /\
        Tree.wf tree) /\
  (forall h0 hs,
      histories = Some (h0 :: hs) ->
      length structures_list <> length (h0 :: hs) ->
      Tree.__init__ h structures_list ts histories =
      Raise (ValueError "histories must have same length as structures_list")).
Proof.
  split.
  - intros tree. unfold Tree.__init__.
    destruct (Tree.init_body structures_list ts histories (Tree.mk h []))
      as [[[]|e] self] eqn:Hrun; [|discriminate].
    intros [= <-]. unfold Tree.init_body in Hrun.
    apply bind_Ok_inv in Hrun as ([] & ? & [= <-] & Hrun). simpl in Hrun.
    assert (exists objs,
      length objs = length structures_list /\
      self = Tree.mk (h ++ objs) (seq (length h) (length structures_list)) /\
      (forall j o, objs !! j = Some o ->
         exists s, structures_list !! j = Some s /\
           TS.__init__ s ts
             (match histories with
              | Some ((_ :: _) as hs) => hs !! j
              | _ => None
              end) = Ok o)) as (objs & Hlen & -> & Hobjs).
    { set (built := fun j o => exists s, structures_list !! j = Some s /\
             TS.__init__ s ts
               (match histories with
                | Some ((_ :: _) as hs) => hs !! j
                | _ => None
                end) = Ok o).
      assert (forall i v, PyList.index structures_list (Z.of_nat i) = Ok v ->
                structures_list !! i = Some v) as Hindex.
      { intros i v. unfold PyList.index.
        destruct (Z.of_nat i <? 0)%Z eqn:Hneg; [apply Z.ltb_lt in Hneg; lia|].
        destruct (_ && _)%bool; [|discriminate]. rewrite Nat2Z.id.
        destruct (structures_list !! i); [|discriminate]. by intros [= ->]. }
      destruct histories as [[|h0 hs]|].
      - eapply (alloc_loop _ built) in Hrun as (objs & Hlen & -> & Hobjs).
        + exists objs. by repeat split.
        + intros i self0 self1 Hstep.
          apply bind_Ok_inv in Hstep as (s & ? & Hs & Hstep).
          unfold lift in Hs. injection Hs as Hs <-.
          apply bind_Ok_inv in Hstep as (x & self2 & Hnew & Hstep).
          unfold Tree.new in Hnew.
          destruct (TS.__init__ s ts None) as [o|e] eqn:Ho; [|discriminate].
          injection Hnew as <- <-. injection Hstep as <-.
          exists o. split; [|done]. exists s. split; [by apply Hindex|done].
      - destruct (decide (length structures_list = length (h0 :: hs))) as [Heq|Hne];
          [|discriminate].
        eapply (alloc_loop _ built) in Hrun as (objs & Hlen & -> & Hobjs).
        + exists objs. by repeat split.
        + intros i self0 self1 Hstep.
          apply bind_Ok_inv in Hstep as (s & ? & Hs & Hstep).
          unfold lift in Hs. injection Hs as Hs <-.
          apply bind_Ok_inv in Hstep as (hi & ? & Hhi & Hstep).
          unfold lift in Hhi. injection Hhi as Hhi <-.
          apply bind_Ok_inv in Hstep as (x & self2 & Hnew & Hstep).
          unfold Tree.new in Hnew.
          destruct (TS.__init__ s ts (Some hi)) as [o|e] eqn:Ho; [|discriminate].
          injection Hnew as <- <-. injection Hstep as <-.
          exists o. split; [|done]. exists s. split; [by apply Hindex|].
          assert ((h0 :: hs) !! i = Some hi) as ->; [|done].
          revert Hhi. clear. generalize (h0 :: hs). intros l. unfold PyList.index.
          destruct (Z.of_nat i <? 0)%Z eqn:Hneg; [apply Z.ltb_lt in Hneg; lia|].
          destruct (_ && _)%bool; [|discriminate]. rewrite Nat2Z.id.
          destruct (l !! i); [|discriminate]. by intros [= ->].
      - eapply (alloc_loop _ built) in Hrun as (objs & Hlen & -> & Hobjs).
        + exists objs. by repeat split.
        + intros i self0 self1 Hstep.
          apply bind_Ok_inv in Hstep as (s & ? & Hs & Hstep).
          unfold lift in Hs. injection Hs as Hs <-.
          apply bind_Ok_inv in Hstep as (x & self2 & Hnew & Hstep).
          unfold Tree.new in Hnew.
          destruct (TS.__init__ s ts None) as [o|e] eqn:Ho; [|discriminate].
          injection Hnew as <- <-. injection Hstep as <-.
          exists o. split; [|done]. exists s. split; [by apply Hindex|done]. }
    exists objs. simpl. split; [done|]. split; [done|]. split; [done|].
    split; [done|]. split; [apply NoDup_seq|].
    unfold Tree.wf. simpl. apply Forall_forall. intros x Hx.
    apply elem_of_seq in Hx. apply lookup_lt_is_Some_2.
    rewrite length_app. lia.
  - intros h0 hs -> Hne. unfold Tree.__init__, Tree.init_body.
    unfold mbind, M_bind, modify, raise. simpl.
    by destruct (decide (length structures_list = S (length hs))).
Qed.
End tree_construction.

Section tree_more.
Context `{Alchemy}.
Implicit Types (self : Tree.t) (o : TS.t) (tr : Transformation) (x y : nat).

(** The sweep over distinct members on each of which the transformation
    returns a single structure leaves the two local lists as they were. *)
Lemma sweep_one_to_one tr (clear_redo : bool) : forall pre acc self,
  NoDup pre ->
  (forall y, y ∈ pre -> exists o s s',
      Tree.store self !! y = Some o /\ last (TS._structures o) = Some s /\
      apply_transformation tr s = Ok (One s')) ->
  exists self',
    for_acc pre acc (Tree.append_member tr clear_redo) self = (Ok acc, self') /\
    (forall y, y ∉ pre -> Tree.store self' !! y = Tree.store self !! y).
Proof.
  induction pre as [|y0 pre IH]; intros acc self Hnd Hall.
  - by exists self.
  - apply NoDup_cons in Hnd as [Hy0 Hnd].
    destruct (Hall y0) as (o0 & s0 & s0' & Ho0 & Hs0 & Hv0); [by left|].
    destruct acc as [new del].
    pose proof (append_member_ok tr clear_redo new del y0 self o0 s0 _ Ho0 Hs0 Hv0)
      as Hstep.
    set (self1 := Tree.set_store _ self) in Hstep.
    assert (forall y, y <> y0 -> Tree.store self1 !! y = Tree.store self !! y) as Hframe.
    { intros y Hy. subst self1. simpl. by apply list_lookup_insert_ne. }
    destruct (IH (new, del) self1 Hnd) as (self' & Hrun & Hout).
    { intros y Hy. destruct (Hall y) as (o & s & s' & Ho & Hs & Hv); [by right|].
      exists o, s, s'. rewrite Hframe; [done|]. intros ->. done. }
    exists self'. split.
    + cbn [for_acc]. unfold mbind, M_bind. by rewrite Hstep.
    + intros y Hy. apply not_elem_of_cons in Hy as [Hne Hy].
      rewrite Hout by done. by apply Hframe.
Qed.

(** X12. On a tree of distinct members, a transformation that returns a
    single structure on every member's final structure leaves the member
    list as it is and gives every member exactly one more structure and one
    more transformation (and an empty redo list when [clear_redo] is set);
    no other object of the store changes. *)
Theorem tree_append_one_to_one self tr (clear_redo : bool) :
  NoDup (Tree._transformed_structures self) ->
  (forall y, y ∈ Tree._transformed_structures self -> exists o s s',
      Tree.store self !! y = Some o /\ last (TS._structures o) = Some s /\
      apply_transformation tr s = Ok (One s')) ->
  exists self',
    Tree.append_transformation tr clear_redo self = (Ok tt, self') /\
    Tree._transformed_structures self' = Tree._transformed_structures self /\
    (forall y, y ∉ Tree._transformed_structures self ->
        Tree.store self' !! y = Tree.store self !! y) /\
    (forall y o s s', y ∈ Tree._transformed_structures self ->
        Tree.store self !! y = Some o -> last (TS._structures o) = Some s ->
        apply_transformation tr s = Ok (One s') ->
        Tree.store self' !! y =
        Some (TS.mk (TS._source o) (TS._structures o ++ [One s'])
                    (TS._transformations o ++ [tr])
                    (if clear_redo then [] else TS._redo_trans o))).
Proof.
  intros Hnd Hall.
  destruct (sweep_one_to_one tr clear_redo _ ([], []) self Hnd Hall)
    as (self1 & Hrun1 & _).
  destruct (sweep_returns tr clear_redo _ ([], []) self Hnd)
    as (acc' & self' & Hrun & Hms & Hout & Hin).
  { intros y Hy. destruct (Hall y Hy) as (o & s & s' & ?). by exists o, s, (One s'). }
  rewrite Hrun1 in Hrun. injection Hrun as <- <-.
  exists self1. split; [|split; [done|split; [done|]]].
  - unfold Tree.append_transformation.
    unfold mbind at 1. unfold M_bind at 1. unfold get at 1.
    unfold mbind at 1. unfold M_bind at 1. rewrite Hrun1.
    unfold for_each. cbn [for_acc]. unfold_monad.
    destruct self1 as [st ms]. unfold Tree.set_transformed_structures. simpl.
    by rewrite app_nil_r.
  - intros y o s s' Hy Ho Hs Hv. by rewrite (Hin y o s (One s') Hy Ho Hs Hv).
Qed.

Lemma keeps_bind {A B} (m : M Tree.t A) (k : A -> M Tree.t B) :
  keeps m -> (forall a, keeps (k a)) -> keeps (m ≫= k).
Proof.
  intros Hm Hk self. unfold mbind, M_bind. specialize (Hm self).
  destruct (m self) as [[a|e] self1]; simpl in *; [|done].
  destruct Hm as [Hl0 Ht0]. destruct (Hk a self1) as [Hl Ht].
  split; [by rewrite Hl|by rewrite Ht].
Qed.

Lemma keeps_on {A} x (m : M TS.t A) : keeps (Tree.on x m).
Proof.
  intros self. unfold Tree.on. destruct (Tree.store self !! x) as [o|]; [|done].
  destruct (m o) as [r o']. simpl. by rewrite length_insert.
Qed.

Lemma keeps_mret {A} (a : A) : keeps (mret a).
Proof. by intros self. Qed.

Lemma keeps_lift {A} (r : result A) : keeps (lift r).
Proof. by intros self. Qed.

Lemma keeps_for_acc {A B} (xs : list A) (body : B -> A -> M Tree.t B) : forall b,
  (forall b' a, keeps (body b' a)) -> keeps (for_acc xs b body).
Proof.
  induction xs as [|a xs IH]; intros acc Hbody; [apply keeps_mret|].
  simpl. apply keeps_bind; [apply Hbody|]. intros acc'. by apply IH.
Qed.

Lemma keeps_append_member tr (clear_redo : bool) acc x :
  keeps (Tree.append_member tr clear_redo acc x).
Proof.
  unfold Tree.append_member. destruct acc as [new del].
  apply keeps_bind; [apply keeps_on|]. intros last_s.
  apply keeps_bind; [apply keeps_lift|]. intros [s'|outs].
  - apply keeps_bind.
    + apply keeps_bind; [apply keeps_on|]. intros _.
      apply keeps_bind; [apply keeps_on|]. intros _. apply keeps_mret.
    + intros acc. apply keeps_bind; [|intros; apply keeps_mret].
      destruct clear_redo; [apply keeps_on|apply keeps_mret].
  - apply keeps_bind.
    + apply keeps_bind; [|intros; apply keeps_mret].
      apply keeps_for_acc. intros new' out. unfold Tree.append_branch.
      apply keeps_bind; [apply keeps_on|]. intros _.
      apply keeps_bind; [apply keeps_on|]. intros _. apply keeps_mret.
    + intros acc. apply keeps_bind; [|intros; apply keeps_mret].
      destruct clear_redo; [apply keeps_on|apply keeps_mret].
Qed.

(** The references a completed sweep has collected are members. *)
Lemma append_branch_collects tr x : forall outs new self new' self',
  for_acc outs new (Tree.append_branch tr x) self = (Ok new', self') ->
  forall y, y ∈ new' -> y ∈ new \/ y = x.
Proof.
  induction outs as [|out outs IH]; intros new self new' self' Hrun y Hy.
  - injection Hrun as <- <-. by left.
  - simpl in Hrun. apply bind_Ok_inv in Hrun as (new1 & self1 & Hstep & Hrun).
    unfold Tree.append_branch in Hstep.
    apply bind_Ok_inv in Hstep as ([] & ? & _ & Hstep).
    apply bind_Ok_inv in Hstep as ([] & ? & _ & Hstep).
    injection Hstep as <- <-.
    destruct (IH _ _ _ _ Hrun y Hy) as [Hin| ->]; [|by right].
    apply elem_of_app in Hin as [Hin|Hin]; [by left|].
    apply list_elem_of_singleton in Hin. by right.
Qed.

Lemma append_member_collects tr (clear_redo : bool) new del x self new' del' self' :
  Tree.append_member tr clear_redo (new, del) x self = (Ok (new', del'), self') ->
  forall y, y ∈ new' -> y ∈ new \/ y = x.
Proof.
  unfold Tree.append_member. intros Hrun.
  apply bind_Ok_inv in Hrun as (last_s & ? & _ & Hrun).
  apply bind_Ok_inv in Hrun as (v & ? & _ & Hrun).
  apply bind_Ok_inv in Hrun as ([new1 del1] & ? & Hcase & Hrun).
  apply bind_Ok_inv in Hrun as ([] & ? & _ & Hrun).
  injection Hrun as <- <- <-.
  destruct v as [s'|outs].
  - apply bind_Ok_inv in Hcase as ([] & ? & _ & Hcase).
    apply bind_Ok_inv in Hcase as ([] & ? & _ & Hcase).
    injection Hcase as <- <- <-. intros y Hy. by left.
  - apply bind_Ok_inv in Hcase as (new2 & ? & Hloop & Hcase).
    injection Hcase as <- <- <-.
    by eapply append_branch_collects.
Qed.

Lemma sweep_collects tr (clear_redo : bool) : forall ms new del self new' del' self',
  for_acc ms (new, del) (Tree.append_member tr clear_redo) self
    = (Ok (new', del'), self') ->
  forall y, y ∈ new' -> y ∈ new \/ y ∈ ms.
Proof.
  induction ms as [|x ms IH]; intros new del self new' del' self' Hrun y Hy.
  - injection Hrun as <- <- <-. by left.
  - simpl in Hrun. apply bind_Ok_inv in Hrun as ([new1 del1] & self1 & Hstep & Hrun).
    destruct (IH _ _ _ _ _ _ Hrun y Hy) as [Hin|Hin]; [|right; by right].
    destruct (append_member_collects _ _ _ _ _ _ _ _ _ Hstep y Hin) as [?| ->];
      [by left|right; by left].
Qed.

Lemma remove_subseteq (x : nat) : forall l l',
  PyList.remove x l = Ok l' -> forall y, y ∈ l' -> y ∈ l.
Proof.
  induction l as [|z l IH]; intros l' Hrm y Hy; [discriminate|].
  simpl in Hrm. destruct (decide (x = z)) as [->|Hne].
  - injection Hrm as <-. by right.
  - destruct (PyList.remove x l) as [r|e] eqn:Hr; [|discriminate].
    injection Hrm as <-. apply elem_of_cons in Hy as [->|Hy]; [by left|].
    right. by eapply IH.
Qed.

Lemma removals_shrink (del : list nat) : forall self,
  let self' := (for_each del (fun x =>
      self ← get;
      l ← lift (PyList.remove x (Tree._transformed_structures self));
      modify (Tree.set_transformed_structures l)) self).2 in
  Tree.store self' = Tree.store self /\
  forall y, y ∈ Tree._transformed_structures self' ->
            y ∈ Tree._transformed_structures self.
Proof.
  induction del as [|x del IH]; intros self; [done|].
  cbn zeta. rewrite for_each_cons. unfold_monad.
  destruct (PyList.remove x (Tree._transformed_structures self)) as [l|e] eqn:Hrm;
    [|done].
  specialize (IH (Tree.set_transformed_structures l self)). cbn zeta in IH.
  unfold_monad. destruct IH as [Hst Hms]. split; [by rewrite Hst|].
  intros y Hy. apply Hms in Hy. simpl in Hy. by eapply remove_subseteq.
Qed.

(** X13. Whatever the tree and the transformation, and whether the call
    returns or raises, [append_transformation] allocates no object and lists
    no object that was not a member before: the branches of a one-to-many
    transformation are never new [TransformedStructure] objects. *)
Theorem tree_append_never_allocates self tr (clear_redo : bool) :
  let self' := (Tree.append_transformation tr clear_redo self).2 in
  length (Tree.store self') = length (Tree.store self) /\
  forall y, y ∈ Tree._transformed_structures self' ->
            y ∈ Tree._transformed_structures self.
Proof.
  cbn zeta.
  destruct (Tree.append_transformation tr clear_redo self) as [r self'] eqn:Hrun.
  simpl. unfold Tree.append_transformation in Hrun.
  unfold mbind at 1 in Hrun. unfold M_bind at 1 in Hrun. unfold get at 1 in Hrun.
  unfold mbind at 1 in Hrun. unfold M_bind at 1 in Hrun.
  pose proof (keeps_for_acc (Tree._transformed_structures self)
                (Tree.append_member tr clear_redo) ([], [])
                (keeps_append_member tr clear_redo) self) as [Hlen Hms].
  destruct (for_acc _ _ _ self) as [[[new del]|e] self1] eqn:Hsweep; simpl in *.
  2: { injection Hrun as <- <-. split; [done|]. by rewrite Hms. }
  pose proof (sweep_collects _ _ _ _ _ _ _ _ _ Hsweep) as Hnew.
  unfold mbind at 1 in Hrun. unfold M_bind at 1 in Hrun.
  pose proof (removals_shrink del self1) as Hdel. cbn zeta in Hdel.
  destruct (for_each del _ self1) as [[[]|e] self2]; simpl in *;
    destruct Hdel as [Hst Hsub]; injection Hrun as <- <-.
  - simpl. split; [by rewrite Hst|].
    intros y Hy. apply elem_of_app in Hy as [Hy|Hy].
    + rewrite <- Hms. by apply Hsub.
    + destruct (Hnew y Hy) as [Hnil|?]; [|done]. by apply elem_of_nil in Hnil.
  - split; [by rewrite Hst|]. intros y Hy. rewrite <- Hms. by apply Hsub.
Qed.
End tree_more.

Section tree_broadcast.
Context `{Alchemy}.
Implicit Types (self : Tree.t) (o : TS.t) (tr : Transformation) (x y : nat).

(** A method run on every one of a list of distinct objects, returning on
    each: every object is left as the method leaves it, nothing else moves. *)
Lemma broadcast_returns (m : M TS.t unit) : forall pre self,
  NoDup pre ->
  (forall y, y ∈ pre -> exists o, Tree.store self !! y = Some o /\ (m o).1 = Ok tt) ->
  exists self',
    for_each pre (fun x => Tree.on x m) self = (Ok tt, self') /\
    Tree._transformed_structures self' = Tree._transformed_structures self /\
    length (Tree.store self') = length (Tree.store self) /\
    (forall y, y ∉ pre -> Tree.store self' !! y = Tree.store self !! y) /\
    (forall y o, y ∈ pre -> Tree.store self !! y = Some o ->
        Tree.store self' !! y = Some (m o).2).
Proof.
  induction pre as [|y0 pre IH]; intros self Hnd Hall.
  - exists self. split; [done|]. split; [done|]. split; [done|]. split; [done|].
    intros y o Hy. by apply elem_of_nil in Hy.
  - apply NoDup_cons in Hnd as [Hy0 Hnd].
    destruct (Hall y0) as (o0 & Ho0 & Hm0); [by left|].
    pose proof (lookup_lt_Some _ _ _ Ho0) as Hlt.
    pose proof (on_eq y0 m self o0 Ho0) as Hstep. rewrite Hm0 in Hstep.
    set (self1 := Tree.set_store _ self) in Hstep.
    assert (forall y, y <> y0 -> Tree.store self1 !! y = Tree.store self !! y) as Hframe.
    { intros y Hy. subst self1. simpl. by apply list_lookup_insert_ne. }
    destruct (IH self1 Hnd) as (self' & Hrun & Hms & Hlen & Hout & Hin).
    { intros y Hy. destruct (Hall y) as (o & Ho & Hm); [by right|].
      exists o. rewrite Hframe; [done|]. intros ->. done. }
    exists self'. split; [|split; [|split; [|split]]].
    + by rewrite for_each_cons, Hstep.
    + by rewrite Hms.
    + rewrite Hlen. subst self1. simpl. by rewrite length_insert.
    + intros y Hy. apply not_elem_of_cons in Hy as [Hne Hy].
      rewrite Hout by done. by apply Hframe.
    + intros y o Hy Ho. apply elem_of_cons in Hy as [->|Hy].
      * rewrite Hout by done. subst self1. simpl.
        rewrite Ho0 in Ho. injection Ho as <-. by apply list_lookup_insert_eq.
      * apply Hin; [done|]. rewrite Hframe; [done|]. intros ->. done.
Qed.

Lemma for_each_app {S A} (l1 l2 : list A) (body : A -> M S unit) s :
  for_each (l1 ++ l2) body s =
  match for_each l1 body s with
  | (Ok _, s') => for_each l2 body s'
  | (Raise e, s') => (Raise e, s')
  end.
Proof.
  revert s. induction l1 as [|a l1 IH]; intros s; [reflexivity|].
  simpl app. rewrite !for_each_cons.
  destruct (body a s) as [[[]|e] s']; [|done]. apply IH.
Qed.

(** X14. On a tree of distinct members, [undo_last_transformation] stops
    at the first member that has no transformation left: it raises
    [IndexError], the members before it have been undone (last structure and
    last transformation popped, the transformation appended to the redo
    list), and the raising member and the members after it are untouched. *)
Theorem tree_undo_partial_failure self pre x post ox :
  Tree._transformed_structures self = pre ++ x :: post ->
  NoDup (pre ++ x :: post) ->
  (forall y, y ∈ pre -> exists o,
      Tree.store self !! y = Some o /\ TS.invariant o /\ TS._transformations o <> []) ->
  Tree.store self !! x = Some ox ->
  TS._transformations ox = [] ->
  exists self',
    Tree.undo_last_transformation self =
      (Raise (IndexError "Can't undo. Already at oldest change."), self') /\
    Tree._transformed_structures self' = Tree._transformed_structures self /\
    (forall y, y ∉ pre -> Tree.store self' !! y = Tree.store self !! y) /\
    (forall y o tr, y ∈ pre -> Tree.store self !! y = Some o ->
        last (TS._transformations o) = Some tr ->
        Tree.store self' !! y =
        Some (TS.mk (TS._source o) (removelast (TS._structures o))
                    (removelast (TS._transformations o))
                    (TS._redo_trans o ++ [tr]))).
Proof.
  intros Hms Hnd Hpre Hox Hnil.
  apply NoDup_app in Hnd as (Hnd_pre & Hdisj & _).
  assert (x ∉ pre) as Hx. { intros Hin. apply (Hdisj x Hin). by left. }
  assert (forall o, TS.invariant o -> TS._transformations o <> [] ->
            exists tr, last (TS._transformations o) = Some tr /\
              TS.undo_last_transformation o =
              (Ok tt, TS.mk (TS._source o) (removelast (TS._structures o))
                            (removelast (TS._transformations o))
                            (TS._redo_trans o ++ [tr]))) as Hundo.
  { intros o Hinv Hne.
    destruct (last (TS._transformations o)) as [tr|] eqn:Hlast.
    - destruct (undo_last_transformation_pops o tr Hinv Hlast) as (s & _ & Hu).
      by exists tr.
    - by apply last_None in Hlast. }
  destruct (broadcast_returns TS.undo_last_transformation pre self Hnd_pre)
    as (self' & Hrun & Hms' & Hlen & Hout & Hin).
  { intros y Hy. destruct (Hpre y Hy) as (o & Ho & Hinv & Hne).
    exists o. split; [done|]. destruct (Hundo o Hinv Hne) as (tr & _ & ->). done. }
  exists self'. split; [|split; [done|split; [done|]]].
  - unfold Tree.undo_last_transformation. unfold mbind, M_bind, get.
    rewrite Hms, for_each_app, Hrun, for_each_cons.
    assert (Tree.store self' !! x = Some ox) as Hox' by (by rewrite Hout).
    rewrite (on_eq _ _ _ ox Hox'), (undo_last_transformation_oldest ox Hnil).
    simpl. by rewrite (set_store_id _ _ _ Hox').
  - intros y o tr Hy Ho Hlast. rewrite (Hin y o Hy Ho).
    destruct (Hpre y Hy) as (o' & Ho' & Hinv & Hne).
    rewrite Ho in Ho'. injection Ho' as <-.
    destruct (Hundo o Hinv Hne) as (tr' & Hlast' & ->).
    rewrite Hlast in Hlast'. by injection Hlast' as <-.
Qed.

(** X15. On a tree of distinct members that all have a consistent history
    with at least one transformation, [undo_last_transformation] followed by
    [redo_next_transformation] returns and leaves the tree and every object
    of the store exactly as they were. *)
Theorem tree_undo_redo_roundtrip self :
  NoDup (Tree._transformed_structures self) ->
  (forall y, y ∈ Tree._transformed_structures self -> exists o,
      Tree.store self !! y = Some o /\ TS.invariant o /\ TS.consistent o /\
      TS._transformations o <> []) ->
  (Tree.undo_last_transformation;; Tree.redo_next_transformation) self
    = (Ok tt, self).
Proof.
  intros Hnd Hall.
  destruct (broadcast_returns TS.undo_last_transformation _ self Hnd)
    as (self1 & Hrun1 & Hms1 & Hlen1 & Hout1 & Hin1).
  { intros y Hy. destruct (Hall y Hy) as (o & Ho & Hinv & Hcon & Hne).
    exists o. split; [done|].
    destruct (undo_then_redo o Hinv Hcon Hne) as (u & -> & _). done. }
  destruct (broadcast_returns TS.redo_next_transformation _ self1 Hnd)
    as (self2 & Hrun2 & Hms2 & Hlen2 & Hout2 & Hin2).
  { intros y Hy. destruct (Hall y Hy) as (o & Ho & Hinv & Hcon & Hne).
    destruct (undo_then_redo o Hinv Hcon Hne) as (u & Hu & Hback).
    exists u. split; [|by rewrite Hback].
    rewrite (Hin1 y o Hy Ho). by rewrite Hu. }
  unfold Tree.undo_last_transformation, Tree.redo_next_transformation.
  unfold mbind, M_bind, get. rewrite Hrun1, Hms1, Hrun2. f_equal.
  destruct self as [st ms], self2 as [st2 ms2]. simpl in *.
  rewrite Hms2, Hms1. f_equal. apply list_eq. intros y.
  destruct (decide (y ∈ ms)) as [Hy|Hy].
  - destruct (Hall y Hy) as (o & Ho & Hinv & Hcon & Hne).
    destruct (undo_then_redo o Hinv Hcon Hne) as (u & Hu & Hback).
    pose proof (Hin1 y o Hy Ho) as H1. rewrite Hu in H1. simpl in H1.
    rewrite (Hin2 y u Hy H1), Hback. by rewrite Ho.
  - rewrite Hout2 by done. by apply Hout1.
Qed.

(** X16. [get_vasp_input] of a tree that has members raises [TypeError]:
    each member's [__getitem__] is handed three arguments where it takes one.
    Nothing is returned for any member and nothing is modified.  On an empty
    tree it returns the empty list. *)
Theorem tree_get_vasp_input_raises {VaspInputSet : Type}
    self (vasp_input_set : VaspInputSet) (generate_potcar : bool) :
  (Tree._transformed_structures self = [] ->
     Tree.get_vasp_input vasp_input_set generate_potcar self = (Ok [], self)) /\
  (Tree._transformed_structures self <> [] -> Tree.wf self ->
     exists msg,
       Tree.get_vasp_input vasp_input_set generate_potcar self =
       (Raise (TypeError msg), self)).
Proof.
  unfold Tree.get_vasp_input, Tree.wf. split.
  - intros Hnil. unfold mbind, M_bind, get. by rewrite Hnil.
  - intros Hne Hwf. unfold mbind at 1. unfold M_bind at 1. unfold get.
    destruct (Tree._transformed_structures self) as [|x xs]; [done|].
    apply Forall_cons in Hwf as [[o Ho] _]. eexists.
    cbn [comprehension]. unfold mbind at 1. unfold M_bind at 1.
    rewrite (on_eq _ _ _ o Ho). simpl. by rewrite (set_store_id _ _ _ Ho).
Qed.
End tree_broadcast.

Section lineage_to_dict.
Context `{Alchemy}.
Implicit Types (self : TS.t) (tr : Transformation).

Lemma to_dict_loop_list self trs : forall k acc j l,
  k <= j < k + length trs ->
  k + length trs <= length (TS._structures self) ->
  TS._structures self !! j = Some (Many l) ->
  for_acc (imap (fun i tr => (k + i, tr)) trs) acc (TS.to_dict_step self) self
  = (Raise (AttributeError "'list' object has no attribute 'to_dict'"), self).
Proof.
  induction trs as [|tr trs IH]; intros k acc j l Hj Hlen Hmany.
  - simpl in Hj. lia.
  - simpl in Hj, Hlen.
    destruct (lookup_lt_is_Some_2 (TS._structures self) k) as [v Hv]; [lia|].
    cbn [imap for_acc]. unfold mbind at 1. unfold M_bind at 1.
    unfold TS.to_dict_step at 1. rewrite Nat.add_0_r.
    unfold mbind at 1. unfold M_bind at 1. unfold lift at 1.
    rewrite (index_nonneg _ k v Hv).
    unfold mbind at 1. unfold M_bind at 1. unfold lift at 1.
    destruct v as [s|l']; [|reflexivity].
    cbn [value_to_dict]. unfold mret at 1. unfold M_ret at 1.
    rewrite (imap_ext _ (fun i tr => (S k + i, tr)))
      by (intros; simpl; f_equal; lia).
    apply (IH (S k) _ j l); [|lia|done].
    destruct (decide (j = k)) as [->|Hne]; [|lia].
    rewrite Hv in Hmany. discriminate.
Qed.

(** X17. An object that holds a list where a structure is due (a
    transformation returned several structures) cannot be written out:
    [to_dict] raises [AttributeError] and leaves the object as it is. *)
Theorem to_dict_list_structure self j l :
  TS.invariant self ->
  TS._structures self !! j = Some (Many l) ->
  TS.to_dict self =
  (Raise (AttributeError "'list' object has no attribute 'to_dict'"), self).
Proof.
  intros Hinv Hj. pose proof (lookup_lt_Some _ _ _ Hj) as Hlt.
  unfold TS.invariant in Hinv.
  unfold TS.to_dict. unfold mbind at 1. unfold M_bind at 1. unfold get at 1.
  unfold mbind at 1. unfold M_bind at 1. unfold lift at 1.
  rewrite index_last.
  destruct (last (TS._structures self)) as [v|] eqn:Hlast.
  2: { apply last_None in Hlast. rewrite Hlast in Hlt. simpl in Hlt. lia. }
  unfold mbind at 1. unfold M_bind at 1. unfold lift at 1.
  destruct v as [s_last|l']; [|reflexivity]. cbn [value_to_dict].
  unfold mbind at 1. unfold M_bind at 1.
  rewrite (imap_ext _ (fun i tr => (0 + i, tr))) by done.
  rewrite (to_dict_loop_list self _ 0 _ j l); [reflexivity| |simpl; lia|done].
  split; [lia|]. simpl.
  destruct (decide (j < length (TS._transformations self))); [done|].
  exfalso. rewrite last_lookup in Hlast.
  replace (pred (length (TS._structures self))) with j in Hlast by lia.
  rewrite Hj in Hlast. discriminate.
Qed.
End lineage_to_dict.

(** ** Runs of the further properties *)

Lemma two_steps_consistent : TS.consistent Scenario.two_steps.
Proof.
  intros i s s' tr Hs Hs' Htr.
  destruct i as [|[|i]]; simpl in *; try discriminate.
  - injection Hs as <-. injection Hs' as <-. by injection Htr as <-.
  - injection Hs as <-. injection Hs' as <-. by injection Htr as <-.
Qed.

Lemma two_steps_invariant : TS.invariant Scenario.two_steps.
Proof. reflexivity. Qed.

Lemma getitem_negative_index_witness :
  TS.__getitem__ (-1) Scenario.two_steps =
    (Ok (One "A012", [Scenario.Append "1"]), Scenario.two_steps) /\
  TS.__getitem__ (-4) Scenario.two_steps =
    (Raise (IndexError "list index out of range"), Scenario.two_steps).
Proof.
  split.
  - destruct (proj1 (getitem_negative_index Scenario.two_steps) 1)
      as (s & Hs & Hget); [simpl; lia|].
    injection Hs as <-. exact Hget.
  - apply (proj2 (getitem_negative_index Scenario.two_steps)). simpl. lia.
Defined.

Lemma redo_next_transformation_failure_witness :
  TS.redo_next_transformation Scenario.pending_reject =
  (Raise (ValueError "unsupported structure"),
   TS.set_redo_trans [] Scenario.pending_reject).
Proof.
  apply (redo_next_transformation_failure Scenario.pending_reject []
           (Scenario.Reject "A0") (One "A0")); reflexivity.
Defined.

Lemma extend_transformations_stops_witness :
  TS.extend_transformations
    [Scenario.Append "3"; Scenario.Reject "A0123"; Scenario.Append "4"]
    Scenario.two_steps =
  (Raise (ValueError "unsupported structure"),
   (TS.append_transformation (Scenario.Append "3") true Scenario.two_steps).2).
Proof.
  apply (extend_transformations_stops Scenario.two_steps [Scenario.Append "3"]
           (Scenario.Reject "A0123") [Scenario.Append "4"] _ (One "A0123"));
    reflexivity.
Defined.

Lemma extend_transformations_returns_witness :
  exists self',
    TS.extend_transformations [Scenario.Append "3"] Scenario.two_steps = (Ok tt, self') /\
    TS._transformations self' =
    [Scenario.Append "1"; Scenario.Append "2"; Scenario.Append "3"].
Proof.
  eexists. split; [reflexivity|].
  apply (extend_transformations_returns Scenario.two_steps [Scenario.Append "3"]).
  reflexivity.
Defined.

Lemma history_consistent_witness :
  TS.consistent Scenario.two_steps /\
  TS.consistent (TS.undo_last_transformation Scenario.two_steps).2.
Proof.
  destruct (proj1 (history_consistent (H := Scenario.alchemy)) (One "A0")
              [Scenario.Append "1"; Scenario.Append "2"] Scenario.two_steps eq_refl)
    as [Hinv Hcon].
  split; [exact Hcon|].
  apply (proj2 (history_consistent (H := Scenario.alchemy))
           Scenario.two_steps Hinv Hcon).
Defined.

Lemma undo_redo_k_times_witness :
  exists u,
    times 2 TS.undo_last_transformation Scenario.two_steps = (Ok tt, u) /\
    times 2 TS.redo_next_transformation u = (Ok tt, Scenario.two_steps).
Proof.
  apply (undo_redo_k_times Scenario.two_steps 2
           two_steps_invariant two_steps_consistent).
  simpl. lia.
Defined.

Lemma init_with_history_returns_witness :
  exists rs news,
    Forall2 rehydrates (drop 1 Scenario.seeded_history) rs /\
    TS._source Scenario.seeded = Scenario.source /\
    TS._structures Scenario.seeded = (One <$> rs.*1) ++ One "B" :: news /\
    length news = 0 /\
    TS._transformations Scenario.seeded = rs.*2 ++ [] /\
    TS._redo_trans Scenario.seeded = [].
Proof.
  apply (init_with_history_returns (H := Scenario.alchemy) (One "B") []).
  reflexivity.
Defined.


Lemma tree_init_returns_witness :
  exists objs,
    Tree.store Scenario.two_members = [] ++ objs /\
    length objs = 2 /\
    NoDup (Tree._transformed_structures Scenario.two_members) /\
    Tree.wf Scenario.two_members.
Proof.
  destruct (proj1 (tree_init_returns (H := Scenario.alchemy) []
                     [One "A0"; One "A1"] [] None) Scenario.two_members eq_refl)
    as (objs & Hst & Hlen & _ & _ & Hnd & Hwf).
  by exists objs.
Defined.

Lemma two_members_NoDup : NoDup [0; 1].
Proof. apply (bool_decide_unpack (NoDup [0; 1])). reflexivity. Qed.

Lemma tree_append_one_to_one_witness :
  exists self',
    Tree.append_transformation (Scenario.Append "1") true Scenario.two_members
      = (Ok tt, self') /\
    Tree._transformed_structures self' = [0; 1].
Proof.
  destruct (tree_append_one_to_one Scenario.two_members (Scenario.Append "1") true)
    as (self' & Hrun & Hms & _).
  - exact two_members_NoDup.
  - intros y Hy. simpl in Hy.
    apply elem_of_cons in Hy as [->|Hy];
      [|apply list_elem_of_singleton in Hy as ->];
      eexists _, _, _; (split; [reflexivity|]); split; reflexivity.
  - by exists self'.
Defined.

Lemma tree_undo_partial_failure_witness :
  exists self',
    Tree.undo_last_transformation Scenario.mixed_members =
      (Raise (IndexError "Can't undo. Already at oldest change."), self') /\
    Tree.store self' !! 0 =
    Some (TS.mk (PDict ∅) [One "A0"; One "A01"] [Scenario.Append "1"]
                [Scenario.Append "2"]).
Proof.
  destruct (tree_undo_partial_failure Scenario.mixed_members [0] 1 []
              (@TS.mk Scenario.alchemy (PDict ∅) [One "A1"] [] []))
    as (self' & Hrun & _ & _ & Hin).
  - reflexivity.
  - exact two_members_NoDup.
  - intros y Hy. apply list_elem_of_singleton in Hy as ->.
    exists Scenario.two_steps. split; [reflexivity|].
    split; [exact two_steps_invariant|discriminate].
  - reflexivity.
  - reflexivity.
  - exists self'. split; [exact Hrun|].
    apply (Hin 0 Scenario.two_steps (Scenario.Append "2")); [|reflexivity|reflexivity].
    by apply list_elem_of_singleton.
Defined.

Lemma tree_undo_redo_roundtrip_witness :
  (Tree.undo_last_transformation;; Tree.redo_next_transformation)
    Scenario.grown_members = (Ok tt, Scenario.grown_members).
Proof.
  apply tree_undo_redo_roundtrip.
  - exact two_members_NoDup.
  - intros y Hy. exists Scenario.two_steps. split.
    + simpl in Hy. apply elem_of_cons in Hy as [->|Hy]; [reflexivity|].
      apply list_elem_of_singleton in Hy as ->. reflexivity.
    + split; [exact two_steps_invariant|].
      split; [exact two_steps_consistent|discriminate].
Defined.

Lemma tree_get_vasp_input_raises_witness :
  Tree.get_vasp_input tt true Scenario.no_members = (Ok [], Scenario.no_members) /\
  exists msg,
    Tree.get_vasp_input tt true Scenario.two_members =
    (Raise (TypeError msg), Scenario.two_members).
Proof.
  split.
  - apply (proj1 (tree_get_vasp_input_raises Scenario.no_members tt true)).
    reflexivity.
  - apply (proj2 (tree_get_vasp_input_raises Scenario.two_members tt true)).
    + discriminate.
    + unfold Tree.wf. simpl. repeat constructor; by eexists.
Defined.

Lemma to_dict_list_structure_witness :
  exists self,
    TS.__init__ (One "A0") [Scenario.Split ["B1"; "B2"; "B3"]] None = Ok self /\
    TS.to_dict self =
    (Raise (AttributeError "'list' object has no attribute 'to_dict'"), self).
Proof.
  eexists. split; [reflexivity|].
  apply (to_dict_list_structure (H := Scenario.alchemy) _ 1 ["B1"; "B2"; "B3"]);
    reflexivity.
Defined.
